(** * Verification of the video-reader MCP server (src/video-processor.ts and
    the tool handlers of the server entry point).

    JavaScript numbers are modelled as rationals [Q] (the float rounding of
    the heuristics is abstracted), widths and heights as [Z], and the one
    non-finite value the estimators can reach, [NaN], explicitly. *)

From Stdlib Require Import QArith Qround ZArith List Lia Lqa Sorting.Sorted Sorting.Permutation Ascii.
From stdpp Require Import base gmap strings pretty.
Import ListNotations.

Set Warnings "-register-all".
Open Scope Z_scope.

(* ------------------------------------------------------------------------- *)
(** ** JavaScript numbers *)

(** A JS number: a finite value, or NaN (the result of [0 / 0]). *)
Inductive jsnum :=
| JFin (q : Q)
| JNaN.

Definition js_lift2 (f : Q -> Q -> Q) (x y : jsnum) : jsnum :=
  match x, y with
  | JFin a, JFin b => JFin (f a b)
  | _, _ => JNaN
  end.

Definition js_add := js_lift2 Qplus.
Definition js_mul := js_lift2 Qmult.

Definition Qlt_bool (x y : Q) : bool := negb (Qle_bool y x).

(** [x > y]: every comparison with NaN is false. *)
Definition js_gt (x : jsnum) (y : Q) : bool :=
  match x with
  | JFin a => Qlt_bool y a
  | JNaN => false
  end.

(** [x >= y]: every comparison with NaN is false. *)
Definition js_ge (x y : jsnum) : bool :=
  match x, y with
  | JFin a, JFin b => Qle_bool b a
  | _, _ => false
  end.

(** [Math.round]: rounds half up. *)
Definition Qround_js (q : Q) : Z := Qfloor (q + (1 # 2)).

Definition js_round (x : jsnum) : jsnum :=
  match x with
  | JFin q => JFin (inject_Z (Qround_js q))
  | JNaN => JNaN
  end.

Definition js_ceil (x : jsnum) : jsnum :=
  match x with
  | JFin q => JFin (inject_Z (Qceiling q))
  | JNaN => JNaN
  end.

(** [Math.trunc], used by the [%] operator of JS. *)
Definition Qtrunc (q : Q) : Z :=
  if Qle_bool 0 q then Qfloor q else - Qfloor (- q).

(** [x % y] on numbers: the remainder takes the sign of the dividend. *)
Definition Qrem_js (x y : Q) : Q := (x - y * inject_Z (Qtrunc (x / y)))%Q.

(** [String(n)] of an integer-valued number. *)
Definition show_Z (z : Z) : string := pretty z.

Definition show_jsnum (x : jsnum) : string :=
  match x with
  | JFin q => show_Z (Qfloor q)   (* only integer values are printed *)
  | JNaN => "NaN"
  end.

(** [s.padStart(n, '0')]. *)
Definition padStart (n : nat) (s : string) : string :=
  String.append (String.concat "" (List.repeat "0" (n - String.length s))) s.

(* ------------------------------------------------------------------------- *)
(** ** Constants *)

Definition TOKENS_PER_KB_BASE64 : Q := 133 # 100.
Definition TOKENS_PER_CHAR : Q := 1 # 4.
Definition BASE_METADATA_TOKENS : Q := 150.
Definition WARNING_TOKEN_THRESHOLD : Q := 50000.

(* ------------------------------------------------------------------------- *)
(** ** Utility methods of VideoProcessor *)

(** [formatTimestamp(seconds)]. *)
Definition formatTimestamp (seconds : Q) : string :=
  let mins := Qfloor (seconds / 60) in
  let secs := Qfloor (Qrem_js seconds 60) in
  String.append (show_Z mins) (String.append ":" (padStart 2 (show_Z secs))).

(** [estimateBase64Tokens(base64Length)]. *)
Definition estimateBase64Tokens (base64Length : Q) : jsnum :=
  let kbSize := (base64Length / 1024)%Q in
  js_ceil (JFin (kbSize * TOKENS_PER_KB_BASE64 * 1000 * TOKENS_PER_CHAR)%Q).

(** [effectiveWidth * height / width]: [0 / 0] is NaN when [width = 0]
    (then the numerator [min(0,1920) * height] is 0 too). *)
Definition scaled_height (effectiveWidth height width : Z) : jsnum :=
  if Z.eqb width 0 then JNaN
  else JFin (inject_Z (effectiveWidth * height) / inject_Z width)%Q.

(** [estimateFrameTokens(width, height)]. *)
Definition estimateFrameTokens (width height : Z) : jsnum :=
  let effectiveWidth := Z.min width 1920 in
  let effectiveHeight := js_round (scaled_height effectiveWidth height width) in
  let estimatedKB :=
    js_mul (js_mul (js_mul (JFin (inject_Z effectiveWidth)) effectiveHeight)
                   (JFin (1 # 10)))
           (JFin (1 # 1024)) in
  js_ceil (js_mul (js_mul (js_mul estimatedKB (JFin TOKENS_PER_KB_BASE64))
                          (JFin 1000))
                  (JFin TOKENS_PER_CHAR)).

(** The pixel count of the frame as [estimateFrameTokens] sizes it: the
    width capped at 1920 times the rounded, proportionally scaled height. *)
Definition frame_pixels (width height : Z) : Z :=
  let effectiveWidth := Z.min width 1920 in
  effectiveWidth * Qround_js (inject_Z (effectiveWidth * height) / inject_Z width).

(** Tokens per pixel in [estimateFrameTokens]:
    [0.1 / 1024 * TOKENS_PER_KB_BASE64 * 1000 * TOKENS_PER_CHAR]. *)
Definition frame_token_rate : Q :=
  (1 # 10) * (1 # 1024) * TOKENS_PER_KB_BASE64 * 1000 * TOKENS_PER_CHAR.

(* ------------------------------------------------------------------------- *)
(** ** JSON values (the text payloads of the tool responses)

    [JSON.stringify] drops [undefined] fields (we omit the pair) and prints
    NaN as [null]. *)

Inductive json :=
| JNull
| JBool (b : bool)
| JNum (q : Q)
| JStr (s : string)
| JArr (l : list json)
| JObj (l : list (string * json)).

Definition json_of_jsnum (x : jsnum) : json :=
  match x with
  | JFin q => JNum q
  | JNaN => JNull
  end.

Definition jnat (n : nat) : json := JNum (inject_Z (Z.of_nat n)).

(** [obj[key]] on a JSON object. *)
Definition jget (key : string) (j : json) : option json :=
  match j with
  | JObj kvs =>
      match List.find (fun kv => String.eqb (fst kv) key) kvs with
      | Some kv => Some (snd kv)
      | None => None
      end
  | _ => None
  end.

(* ------------------------------------------------------------------------- *)
(** ** Data model (types.ts) *)

Record VideoMetadata := {
  duration : Q;
  width : Z;
  height : Z;
  fps : Q;
  codec : string;
  format : string;
  bitrate : Q;
  hasAudio : bool;
  audioCodec : option string;
  fileSize : option Z
}.

Inductive aspect := AspDuration | AspResolution | AspAudio | AspFormat.

Record AnalysisHint := {
  ah_aspect : aspect;
  ah_recommendation : string;
  ah_parameters : option (list (string * json))
}.

Record VideoMetadataSummary := {
  durationFormatted : string;
  resolution : string;
  humanDescription : string;
  analysisHints : list AnalysisHint
}.

Record FrameReference := {
  fr_index : Z;
  fr_timestamp : Q;
  fr_timestampFormatted : string;
  fr_resolution : string;
  fr_estimatedTokens : jsnum
}.

Inductive hint_type := HAction | HWarning | HInfo | HSuggestion.

Record ContextHint := {
  ch_type : hint_type;
  ch_message : string;
  ch_suggestedTool : option string;
  ch_priority : Z
}.

(* ------------------------------------------------------------------------- *)
(** ** Metadata summary (pure part of getMetadataSummary) *)

(** [Math.max(a, b)] on finite numbers. *)
Definition Qmax_js (a b : Q) : Q := if Qlt_bool a b then b else a.

(** [Math.min(a, b)] on finite numbers. *)
Definition Qmin_js (a b : Q) : Q := if Qlt_bool b a then b else a.

Definition getResolutionLabel (w h : Z) : string :=
  let pixels := w * h in
  if Z.leb (3840 * 2160) pixels then "4K Ultra HD"
  else if Z.leb (1920 * 1080) pixels then "Full HD"
  else if Z.leb (1280 * 720) pixels then "HD"
  else if Z.leb (854 * 480) pixels then "SD"
  else "Low resolution".

Definition getDurationLabel (seconds : Q) : string :=
  if Qlt_bool seconds 60 then
    String.append (show_Z (Qround_js seconds)) " seconds"
  else if Qlt_bool seconds 3600 then
    String.append (show_Z (Qround_js (seconds / 60))) " minutes"
  else
    let hours := Qfloor (seconds / 3600) in
    let mins := Qround_js (Qrem_js seconds 3600 / 60) in
    String.append (show_Z hours)
      (String.append "h " (String.append (show_Z mins) "m")).

Definition generateAnalysisHints (md : VideoMetadata) : list AnalysisHint :=
  let hints :=
    if Qlt_bool (duration md) 30 then
      [{| ah_aspect := AspDuration;
          ah_recommendation := "Short video - extract all key frames (5-10 frames recommended)";
          ah_parameters := Some [("maxFrames", JNum 10);
                                 ("interval", JNum (Qmax_js 1 (duration md / 10)))] |}]
    else if Qlt_bool (duration md) 300 then
      [{| ah_aspect := AspDuration;
          ah_recommendation := "Medium video - sample frames at regular intervals";
          ah_parameters := Some [("maxFrames", JNum 15);
                                 ("interval", JNum (inject_Z (Qfloor (duration md / 15))))] |}]
    else
      [{| ah_aspect := AspDuration;
          ah_recommendation := "Long video - consider extracting frames progressively by time ranges";
          ah_parameters := Some [("maxFrames", JNum 20);
                                 ("interval", JNum (inject_Z (Qfloor (duration md / 20))))] |}] in
  let hints :=
    if Z.ltb 1920 (width md) then
      hints ++ [{| ah_aspect := AspResolution;
                   ah_recommendation := "High resolution video - frames will be resized to 1920px max width for efficiency";
                   ah_parameters := Some [("maxWidth", JNum 1920)] |}]
    else hints in
  if hasAudio md then
    hints ++ [{| ah_aspect := AspAudio;
                 ah_recommendation := "Video has audio track - consider extracting for transcription";
                 ah_parameters := None |}]
  else hints.

(** The summary built by [getMetadataSummary] from the probed metadata. *)
Definition summarize (md : VideoMetadata) : VideoMetadataSummary :=
  let resolutionLabel := getResolutionLabel (width md) (height md) in
  let orientation :=
    if Z.ltb (height md) (width md) then "landscape"
    else if Z.ltb (width md) (height md) then "portrait" else "square" in
  let durationLabel := getDurationLabel (duration md) in
  let humanDescription :=
    String.concat ", "
      [resolutionLabel; orientation; "video";
       String.append (show_Z (Qround_js (fps md))) "fps";
       durationLabel;
       if hasAudio md then "with audio" else "no audio"] in
  {| durationFormatted := formatTimestamp (duration md);
     resolution := String.append (show_Z (width md))
                     (String.append "x" (show_Z (height md)));
     humanDescription := humanDescription;
     analysisHints := generateAnalysisHints md |}.

(* ------------------------------------------------------------------------- *)
(** ** Frame references (the loop of getVideoOverview) *)

(** [Number.MAX_VALUE], the largest finite double: [(2^53 - 1) * 2^971]. *)
Definition MAX_VALUE : Q := inject_Z ((2 ^ 53 - 1) * 2 ^ 971).

(** The smallest quotient that rounds to [Infinity] as a double:
    [2^1024 - 2^970], halfway between [MAX_VALUE] and [2^1024] (the tie
    rounds to the even significand, that is to [Infinity]). *)
Definition OVERFLOW_LIMIT : Q := inject_Z (2 ^ 1024 - 2 ^ 970).

(** [Math.max(1, Math.floor(duration / frameCount))] on a finite quotient.
    When [frameCount <= 0] the JS quotient is infinite or NaN, but the loop
    guard [i < frameCount] fails at [i = 0] before the interval is read.
    The rounding of the quotient to a double is not modelled. *)
Definition frameInterval_of (duration frameCount : Q) : Z :=
  Z.max 1 (Qfloor (duration / frameCount)).

(** The interval as a JS number: finite, or [Infinity] when the quotient
    overflows.  A duration is a double, at most [MAX_VALUE] (a larger
    rational is no JS number; it keeps the exact quotient); a quotient at
    or above [OVERFLOW_LIMIT] becomes [Infinity], and so does its floor and
    the [Math.max].  (A negative quotient that overflows gives [-Infinity]
    and the interval 1, as the finite formula does.) *)
Inductive js_interval := IvFin (iv : Z) | IvInfinity.

Definition frameInterval_js (duration frameCount : Q) : js_interval :=
  if Qle_bool duration MAX_VALUE && Qle_bool OVERFLOW_LIMIT (duration / frameCount)
  then IvInfinity
  else IvFin (frameInterval_of duration frameCount).

Definition frameReference (md : VideoMetadata) (i : nat) (frameInterval : Z)
  : FrameReference :=
  let timestamp := inject_Z (Z.of_nat i * frameInterval) in
  let ew := Z.min (width md) 1920 in
  {| fr_index := Z.of_nat i;
     fr_timestamp := timestamp;
     fr_timestampFormatted := formatTimestamp timestamp;
     fr_resolution :=
       String.append (show_Z ew)
         (String.append "x" (show_jsnum (js_round (scaled_height ew (height md) (width md)))));
     fr_estimatedTokens := estimateFrameTokens (width md) (height md) |}.

(** [for (let i = 0; i < frameCount && i * frameInterval < duration; i++)];
    [fuel] bounds the iterations by [ceil(frameCount)], after which the guard
    [i < frameCount] is false anyway. *)
Fixpoint frames_loop (fuel : nat) (i : nat) (md : VideoMetadata)
    (frameCount : Q) (frameInterval : Z) : list FrameReference :=
  match fuel with
  | O => []
  | S fuel' =>
      if Qlt_bool (inject_Z (Z.of_nat i)) frameCount
         && Qlt_bool (inject_Z (Z.of_nat i * frameInterval)) (duration md)
      then frameReference md i frameInterval
             :: frames_loop fuel' (S i) md frameCount frameInterval
      else []
  end.

(** With an infinite interval the loop stops at [i = 0]: [0 * Infinity] is
    NaN, and [NaN < duration] is false. *)
Definition planFrames (md : VideoMetadata) (frameCount : Q) : list FrameReference :=
  match frameInterval_js (duration md) frameCount with
  | IvFin frameInterval =>
      frames_loop (Z.to_nat (Qceiling frameCount)) 0 md frameCount frameInterval
  | IvInfinity => []
  end.

(* ------------------------------------------------------------------------- *)
(** ** Context hints *)

(** [Array.prototype.sort] with a comparator: a stable sort (ES2019); [x] is
    placed before the first [y] with [cmp y x > 0]. *)
Fixpoint sort_insert {A} (cmp : A -> A -> Z) (x : A) (l : list A) : list A :=
  match l with
  | [] => [x]
  | y :: ys => if Z.ltb 0 (cmp y x) then x :: y :: ys else y :: sort_insert cmp x ys
  end.

Definition js_sort {A} (cmp : A -> A -> Z) (l : list A) : list A :=
  fold_left (fun acc x => sort_insert cmp x acc) l [].

Definition totalFrameTokens (frames : list FrameReference) : jsnum :=
  fold_left (fun sum f => js_add sum (fr_estimatedTokens f)) frames (JFin 0).

Definition generateContextHints (md : VideoMetadata) (frames : list FrameReference)
  : list ContextHint :=
  let total := totalFrameTokens frames in
  let hints :=
    if js_gt total WARNING_TOKEN_THRESHOLD then
      [{| ch_type := HWarning;
          ch_message :=
            String.append "Extracting all "
              (String.append (show_Z (Z.of_nat (length frames)))
                (String.append " frames would use ~"
                  (String.append (show_jsnum (js_round (js_mul total (JFin (1 # 1000)))))
                    "K tokens. Consider fetching specific frames instead.")));
          ch_suggestedTool := Some "get_frame";
          ch_priority := 10 |}]
    else [] in
  let hints :=
    if Qlt_bool 300 (duration md) then
      hints ++ [{| ch_type := HSuggestion;
                   ch_message := "For long videos, fetch frames progressively: start with a few key timestamps, then request more if needed.";
                   ch_suggestedTool := Some "get_frame";
                   ch_priority := 8 |}]
    else hints in
  let hints :=
    if hasAudio md then
      hints ++ [{| ch_type := HInfo;
                   ch_message := "Audio track available. Use extract_audio to get the audio file for transcription.";
                   ch_suggestedTool := Some "extract_audio";
                   ch_priority := 5 |}]
    else hints in
  let hints :=
    hints ++ [{| ch_type := HAction;
                 ch_message := "Review the frame timestamps above. Use get_frame to fetch specific frames for visual analysis.";
                 ch_suggestedTool := Some "get_frame";
                 ch_priority := 3 |}] in
  js_sort (fun a b => ch_priority b - ch_priority a) hints.

(* ------------------------------------------------------------------------- *)
(** ** Collaborators: ffprobe, ffmpeg, sharp and the file system *)

(** A stream of the ffprobe output; [r_frame_rate] is the number that
    [eval(videoStream.r_frame_rate || '0') || 0] computes. *)
Record ProbeStream := {
  codec_type : string;
  ps_width : option Z;
  ps_height : option Z;
  r_frame_rate : Q;
  codec_name : option string
}.

Record ProbeData := {
  streams : list ProbeStream;
  fmt_duration : option Q;
  fmt_format_name : option string;
  fmt_bit_rate : option Q
}.

(** The metadata sharp reads from an image buffer. *)
Record Image := {
  img_width : option Z;
  img_height : option Z
}.

(** An encoded image: its base64 text and the metadata of the buffer. *)
Record Encoded := {
  enc_base64 : string;
  enc_width : option Z;
  enc_height : option Z
}.

Inductive img_format := Jpeg | Png.

Definition img_ext (f : img_format) : string :=
  match f with Jpeg => "jpeg" | Png => "png" end.

Inductive audio_format := Mp3 | Wav.

Definition audio_ext (f : audio_format) : string :=
  match f with Mp3 => "mp3" | Wav => "wav" end.

(** The fluent-ffmpeg command built by [extractAudio]. *)
Record AudioCommand := {
  ac_input : string;
  ac_seek : option Q;
  ac_duration : option Q;
  ac_codec : string;
  ac_bitrate : option string;
  ac_output : string
}.

(** The outside world as the code sees it.
    - [env_ffmpeg_frame p ts] is the outcome of the run of
      [ffmpeg(p).seekInput(ts).frames(1).output(framePath)]: its error, or
      its end with the frame it wrote to [framePath] (the metadata
      [sharp(buffer).metadata()] reads back from the file), or its end
      with no frame written (a seek past the last frame).
    - [env_mkdir d] is the outcome of [fs.mkdir(d, { recursive: true })].
    - [env_sharp_resize im w] is [image.resize(w, null, { fit: 'inside' })]:
      the resized image, or the error sharp throws (for a [w] that is not a
      positive integer).
    - [env_now] is [Date.now()] in a call that reads it once.
    - In a [Promise.all], [env_sched k] chooses the pending call that
      resumes at the [k]-th step, and [env_clock k] is [Date.now()] then. *)
Record Env := {
  env_access : string -> bool;
  env_ffprobe : string -> ProbeData + string;
  env_stat_size : string -> option Z;
  env_mkdir : string -> unit + string;
  env_ffmpeg_frame : string -> Q -> option Image + string;
  env_sharp_resize : Image -> Q -> Image + string;
  env_sharp_encode : Image -> img_format -> Q -> Encoded + string;
  env_ffmpeg_audio : AudioCommand -> unit + string;
  env_tmpdir : string;
  env_now : Z;
  env_sched : nat -> nat;
  env_clock : nat -> Z
}.

(** Calls the code makes to its collaborators, in order. *)
Inductive event :=
| EvAccess (p : string)
| EvProbe (p : string)
| EvStat (p : string)
| EvMkdir (d : string)
| EvDecodeFrame (p : string) (ts : Q) (out : string)
| EvResize (maxWidth : Q)
| EvEncode (f : img_format)
| EvRm (f : string)
| EvExtractAudio (cmd : AudioCommand).

(** The mutable state of a [VideoProcessor]: its [frameCache]. *)
Record ProcState := {
  frameCache : gmap string (list FrameReference)
}.

(* ------------------------------------------------------------------------- *)
(** ** The effect monad: reads the environment, threads the processor state,
    records the collaborator calls and may throw (a rejected promise). *)

Definition M (A : Type) : Type :=
  Env -> ProcState -> ProcState * list event * (A + string).

#[global] Instance M_ret : MRet M := fun A a env s => (s, [], inl a).

#[global] Instance M_bind : MBind M := fun A B k m env s =>
  match m env s with
  | (s1, t1, inl a) =>
      match k a env s1 with
      | (s2, t2, r) => (s2, t1 ++ t2, r)
      end
  | (s1, t1, inr e) => (s1, t1, inr e)
  end.

Definition throw {A} (e : string) : M A := fun env s => (s, [], inr e).
Definition ask : M Env := fun env s => (s, [], inl env).
Definition emit (ev : event) : M unit := fun env s => (s, [ev], inl tt).

(** Awaiting a collaborator result, mapping its error message. *)
Definition lift_result {A} (wrap : string -> string) (r : A + string) : M A :=
  match r with
  | inl a => mret a
  | inr e => throw (wrap e)
  end.

(** [try { m } finally { fin }] where [fin] never throws. *)
Definition try_finally {A} (m : M A) (fin : M unit) : M A := fun env s =>
  match m env s with
  | (s1, t1, r) =>
      match fin env s1 with
      | (s2, t2, _) => (s2, t1 ++ t2, r)
      end
  end.

(** [try { m } catch { }]: a failure becomes [None]. *)
Definition try_catch {A} (m : M A) : M (option A) := fun env s =>
  match m env s with
  | (s1, t1, inl a) => (s1, t1, inl (Some a))
  | (s1, t1, inr _) => (s1, t1, inl None)
  end.

(** [this.frameCache.set(key, value)]. *)
Definition cache_set (key : string) (v : list FrameReference) : M unit :=
  fun env s => ({| frameCache := <[key := v]> (frameCache s) |}, [], inl tt).

(* ------------------------------------------------------------------------- *)
(** ** VideoProcessor methods *)

Definition path_join (a b : string) : string := String.append a (String.append "/" b).

(** [path.basename(p)]: the text after the last ["/"], trailing ["/"]s
    removed. *)
Fixpoint basename_rev (cs : list Ascii.ascii) (acc : list Ascii.ascii) : list Ascii.ascii :=
  match cs with
  | [] => acc
  | c :: cs' =>
      if Ascii.eqb c "/"%char then
        (match acc with [] => basename_rev cs' [] | _ => acc end)
      else basename_rev cs' (c :: acc)
  end.

Definition basename (p : string) : string :=
  String.string_of_list_ascii (basename_rev (List.rev (String.list_ascii_of_string p)) []).

(** [this.tempDir = path.join(os.tmpdir(), 'mcp-video-reader')]. *)
Definition tempDir (env : Env) : string := path_join (env_tmpdir env) "mcp-video-reader".

(** [ensureTempDir]: [fs.mkdir], errors logged and swallowed. *)
Definition ensureTempDir : M unit :=
  env ← ask; emit (EvMkdir (tempDir env)).

Definition or_zero_Q (o : option Q) : Q := match o with Some q => q | None => 0%Q end.
Definition or_zero_Z (o : option Z) : Z := match o with Some z => z | None => 0 end.
Definition or_unknown (o : option string) : string :=
  match o with Some s => s | None => "unknown" end.

(** [getMetadata(videoPath)]. *)
Definition getMetadata (videoPath : string) : M VideoMetadata :=
  env ← ask;
  emit (EvProbe videoPath);;
  metadata ← lift_result (String.append "Failed to read video metadata: ")
                         (env_ffprobe env videoPath);
  let videoStream := List.find (fun st => String.eqb (codec_type st) "video") (streams metadata) in
  let audioStream := List.find (fun st => String.eqb (codec_type st) "audio") (streams metadata) in
  match videoStream with
  | None => throw "No video stream found"
  | Some vs =>
      emit (EvStat videoPath);;
      let fileSize := env_stat_size env videoPath in
      mret {| duration := or_zero_Q (fmt_duration metadata);
              width := or_zero_Z (ps_width vs);
              height := or_zero_Z (ps_height vs);
              fps := r_frame_rate vs;
              codec := or_unknown (codec_name vs);
              format := or_unknown (fmt_format_name metadata);
              bitrate := or_zero_Q (fmt_bit_rate metadata);
              hasAudio := if audioStream then true else false;
              audioCodec := match audioStream with Some a => codec_name a | None => None end;
              fileSize := fileSize |}
  end.

(** [getMetadataSummary(videoPath)]. *)
Definition getMetadataSummary (videoPath : string) : M VideoMetadataSummary :=
  metadata ← getMetadata videoPath; mret (summarize metadata).

Record VideoOverview := {
  ov_videoPath : string;
  ov_filename : string;
  ov_metadata : VideoMetadataSummary;
  ov_availableFrames : list FrameReference;
  ov_audio_available : bool;
  ov_audio_durationSeconds : option Q;
  ov_contextHints : list ContextHint
}.

(** [getVideoOverview(videoPath, { frameCount })]. *)
Definition getVideoOverview (videoPath : string) (frameCount : Q) : M VideoOverview :=
  metadata ← getMetadata videoPath;
  summary ← getMetadataSummary videoPath;
  let availableFrames := planFrames metadata frameCount in
  cache_set videoPath availableFrames;;
  let contextHints := generateContextHints metadata availableFrames in
  mret {| ov_videoPath := videoPath;
          ov_filename := basename videoPath;
          ov_metadata := summary;
          ov_availableFrames := availableFrames;
          ov_audio_available := hasAudio metadata;
          ov_audio_durationSeconds :=
            if hasAudio metadata then Some (duration metadata) else None;
          ov_contextHints := contextHints |}.

Record FrameData := {
  fd_ref : FrameReference;
  fd_base64 : string;
  fd_mimeType : string
}.

Definition show_opt_Z (o : option Z) : string :=
  match o with Some z => show_Z z | None => "undefined" end.

(** The message of [fs.readFile] on a missing file. *)
Definition enoent (path : string) : string :=
  String.append "ENOENT: no such file or directory, open '" (String.append path "'").

(** [if (imageMetadata.width && imageMetadata.width > maxWidth)] resize. *)
Definition resize_if_needed (image : Image) (maxWidth : Q) : M Image :=
  env ← ask;
  match img_width image with
  | Some w =>
      if negb (Z.eqb w 0) && Qlt_bool maxWidth (inject_Z w)
      then emit (EvResize maxWidth);; lift_result id (env_sharp_resize env image maxWidth)
      else mret image
  | None => mret image
  end.

(** Re-encoding as jpeg (with [quality]) or png, [Buffer.from(...)]. *)
Definition encode (image : Image) (fmt : img_format) (quality : Q) : M Encoded :=
  env ← ask;
  emit (EvEncode fmt);;
  lift_result id (env_sharp_encode env image fmt quality).

(** [extractSingleFrame(videoPath, timestamp, { maxWidth, format, quality })]. *)
Definition extractSingleFrame (videoPath : string) (timestamp : Q)
    (maxWidth : Q) (fmt : img_format) (quality : Q) : M FrameData :=
  ensureTempDir;;
  env ← ask;
  let framePath :=
    path_join (tempDir env)
      (String.append "frame-" (String.append (show_Z (env_now env))
                                 (String.append "." (img_ext fmt)))) in
  try_finally
    (emit (EvDecodeFrame videoPath timestamp framePath);;
     written ← lift_result id (env_ffmpeg_frame env videoPath timestamp);
     image ← (match written with
              | Some image => mret image
              | None => throw (enoent framePath)
              end);
     processedImage ← resize_if_needed image maxWidth;
     encoded ← encode processedImage fmt quality;
     let base64 := enc_base64 encoded in
     mret {| fd_ref :=
               {| fr_index := 0;
                  fr_timestamp := timestamp;
                  fr_timestampFormatted := formatTimestamp timestamp;
                  fr_resolution :=
                    String.append (show_opt_Z (enc_width encoded))
                      (String.append "x" (show_opt_Z (enc_height encoded)));
                  fr_estimatedTokens :=
                    estimateBase64Tokens (inject_Z (Z.of_nat (String.length base64))) |};
             fd_base64 := base64;
             fd_mimeType := match fmt with Jpeg => "image/jpeg" | Png => "image/png" end |})
    (emit (EvRm framePath)).

(* ------------------------------------------------------------------------- *)
(** ** [Promise.all] over concurrent [extractSingleFrame] calls

    [Promise.all(limitedTimestamps.map(ts => processor.extractSingleFrame(...)))]
    starts every call at once: in the order of the array each call runs up
    to its first [await], the [fs.mkdir] of [ensureTempDir].  From then on
    a call resumes when the operation it awaits completes, in an order the
    program does not fix: at each step the environment's scheduler chooses
    the pending call that resumes, and it runs up to its next [await].  The
    calls share the file system: each names its frame file
    [frame-${Date.now()}.ext], so calls that read the same clock write, read
    and remove the same file.  The calls still pending when [Promise.all]
    rejects keep running; they are run to the end here. *)

(** The outcome of [Promise.all] on the outcomes of its promises, when none
    rejected first. *)
Fixpoint collect {A} (rs : list (A + string)) : list A + string :=
  match rs with
  | [] => inl []
  | r :: rs' =>
      match r, collect rs' with
      | inl a, inl l => inl (a :: l)
      | inr e, _ => inr e
      | inl _, inr e => inr e
      end
  end.

(** The value [extractSingleFrame] returns for the encoded image. *)
Definition frameData_of (timestamp : Q) (fmt : img_format) (encoded : Encoded) : FrameData :=
  let base64 := enc_base64 encoded in
  {| fd_ref :=
       {| fr_index := 0;
          fr_timestamp := timestamp;
          fr_timestampFormatted := formatTimestamp timestamp;
          fr_resolution :=
            String.append (show_opt_Z (enc_width encoded))
              (String.append "x" (show_opt_Z (enc_height encoded)));
          fr_estimatedTokens :=
            estimateBase64Tokens (inject_Z (Z.of_nat (String.length base64))) |};
     fd_base64 := base64;
     fd_mimeType := match fmt with Jpeg => "image/jpeg" | Png => "image/png" end |}.

(** Where a call of [extractSingleFrame] is suspended. *)
Inductive frame_task :=
| FTMkdir                                   (* await this.ensureTempDir() *)
| FTDecode (framePath : string)             (* await the ffmpeg run *)
| FTRead (framePath : string)               (* await fs.readFile(framePath), image.metadata() *)
| FTEncode (framePath : string) (processedImage : Image)
                                            (* await toBuffer(), sharp(imageBuffer).metadata() *)
| FTRm (framePath : string) (r : FrameData + string)
                                            (* finally: await fs.rm(framePath) *)
| FTDone (r : FrameData + string).          (* settled *)

Definition task_settled (t : frame_task) : bool :=
  match t with FTDone _ => true | _ => false end.

(** The call on [timestamp] resumes in [t] and runs up to its next [await]:
    the frame files after it, the collaborator calls it made and where it
    is suspended next.  [now] is [Date.now()] at this step. *)
Definition frame_task_step (env : Env) (now : Z) (videoPath : string) (maxWidth : Q)
    (fmt : img_format) (quality : Q) (files : gmap string Image) (timestamp : Q)
    (t : frame_task) : gmap string Image * list event * frame_task :=
  match t with
  | FTMkdir =>
      let framePath :=
        path_join (tempDir env)
          (String.append "frame-" (String.append (show_Z now)
                                     (String.append "." (img_ext fmt)))) in
      (files, [EvDecodeFrame videoPath timestamp framePath], FTDecode framePath)
  | FTDecode framePath =>
      match env_ffmpeg_frame env videoPath timestamp with
      | inl (Some image) => (<[framePath := image]> files, [], FTRead framePath)
      | inl None => (files, [], FTRead framePath)
      | inr e => (files, [EvRm framePath], FTRm framePath (inr e))
      end
  | FTRead framePath =>
      match files !! framePath with
      | None => (files, [EvRm framePath], FTRm framePath (inr (enoent framePath)))
      | Some image =>
          let '(resized, processed) :=
            match img_width image with
            | Some w =>
                if negb (Z.eqb w 0) && Qlt_bool maxWidth (inject_Z w)
                then ([EvResize maxWidth], env_sharp_resize env image maxWidth)
                else ([], inl image)
            | None => ([], inl image)
            end in
          match processed with
          | inl processedImage =>
              (files, resized ++ [EvEncode fmt], FTEncode framePath processedImage)
          | inr e => (files, resized ++ [EvRm framePath], FTRm framePath (inr e))
          end
      end
  | FTEncode framePath processedImage =>
      match env_sharp_encode env processedImage fmt quality with
      | inl encoded =>
          (files, [EvRm framePath], FTRm framePath (inl (frameData_of timestamp fmt encoded)))
      | inr e => (files, [EvRm framePath], FTRm framePath (inr e))
      end
  | FTRm framePath r => (delete framePath files, [], FTDone r)
  | FTDone r => (files, [], FTDone r)
  end.

(** The indices of the calls not yet settled. *)
Definition pending (tasks : list (Q * frame_task)) : list nat :=
  List.filter (fun i => match tasks !! i with
                        | Some x => negb (task_settled x.2)
                        | None => false
                        end)
    (seq 0 (length tasks)).

(** The event loop: [k] steps have run, [rejected] is the first rejection.
    [fuel] bounds the number of steps; each step brings a call closer to
    its end, five steps at most per call. *)
Fixpoint run_frame_tasks (env : Env) (videoPath : string) (maxWidth : Q)
    (fmt : img_format) (quality : Q) (fuel k : nat) (files : gmap string Image)
    (tasks : list (Q * frame_task)) (rejected : option string)
    : list event * list (Q * frame_task) * option string :=
  match fuel with
  | O => ([], tasks, rejected)
  | S fuel' =>
      match pending tasks with
      | [] => ([], tasks, rejected)
      | pend =>
          let i := nth (env_sched env k mod length pend) pend O in
          match tasks !! i with
          | None => ([], tasks, rejected)
          | Some (timestamp, t) =>
              let '(files', evs, t') :=
                frame_task_step env (env_clock env k) videoPath maxWidth fmt quality
                  files timestamp t in
              let rejected' :=
                match rejected, t' with
                | None, FTDone (inr e) => Some e
                | _, _ => rejected
                end in
              let '(evs', tasks', rejected'') :=
                run_frame_tasks env videoPath maxWidth fmt quality fuel' (S k) files'
                  (<[i := (timestamp, t')]> tasks) rejected' in
              (evs ++ evs', tasks', rejected'')
          end
      end
  end.

(** The value of a settled call (never read for a pending one). *)
Definition task_result (t : frame_task) : FrameData + string :=
  match t with
  | FTDone r => r
  | _ => inr "pending"
  end.

(** [Promise.all(timestamps.map(ts => this.extractSingleFrame(videoPath, ts,
    { maxWidth, format, quality })))]; no frame file exists before. *)
Definition promise_all_frames (videoPath : string) (timestamps : list Q) (maxWidth : Q)
    (fmt : img_format) (quality : Q) : M (list FrameData) := fun env s =>
  let started := map (fun ts => (ts, FTMkdir)) timestamps in
  let '(evs, settled, rejected) :=
    run_frame_tasks env videoPath maxWidth fmt quality (5 * length timestamps) O ∅
      started None in
  (s, map (fun _ => EvMkdir (tempDir env)) timestamps ++ evs,
   match rejected with
   | Some e => inr e
   | None => collect (map (fun x => task_result x.2) settled)
   end).

(** Steps left to a call in [t] before it settles. *)
Definition task_measure (t : frame_task) : nat :=
  match t with
  | FTMkdir => 5 | FTDecode _ => 4 | FTRead _ => 3 | FTEncode _ _ => 2
  | FTRm _ _ => 1 | FTDone _ => 0
  end.

(** Steps left to all the calls. *)
Definition tasks_measure (tasks : list (Q * frame_task)) : nat :=
  sum_list_with (fun x => task_measure x.2) tasks.

(** The outcome of a call once its body has finished. *)
Definition task_outcome (t : frame_task) : option (FrameData + string) :=
  match t with FTRm _ r | FTDone r => Some r | _ => None end.

(** The decoder requests the calls still to reach [ensureTempDir] will make. *)
Definition mkdir_pending (p : string) (tasks : list (Q * frame_task)) : list (string * Q) :=
  flat_map (fun x => match x.2 with FTMkdir => [(p, x.1)] | _ => [] end) tasks.

Record VideoFrame := {
  vf_timestamp : Q;
  vf_base64 : string;
  vf_width : Z;
  vf_height : Z
}.

(** [interval || Math.max(1, Math.floor(duration / maxFrames))]; a missing
    or zero [interval] takes the default.  When [maxFrames <= 0] the JS
    default is infinite, NaN or 1, and [totalFrames] below is [<= 0] or NaN
    either way: no iteration, as here.  The quotients are exact here; where
    a JS quotient overflows (a positive [maxFrames] or [interval] below
    [duration / MAX_VALUE]) [totalFrames] is the same: 0 for the infinite
    default, [maxFrames] for an infinite [duration / interval]. *)
Definition extractFrames_interval (duration maxFrames : Q) (interval : option Q) : Q :=
  let dflt := inject_Z (Z.max 1 (Qfloor (duration / maxFrames))) in
  match interval with
  | Some iv => if Qeq_bool iv 0 then dflt else iv
  | None => dflt
  end.

(** [Math.min(maxFrames, Math.floor(duration / frameInterval))]. *)
Definition extractFrames_total (duration maxFrames frameInterval : Q) : Q :=
  Qmin_js maxFrames (inject_Z (Qfloor (duration / frameInterval))).

(** One iteration of the loop of [extractFrames]. *)
Definition extractFrames_one (videoPath frameDir : string) (frameInterval : Q)
    (maxWidth : Q) (outputFormat : img_format) (jpegQuality : Q) (i : nat)
    : M VideoFrame :=
  env ← ask;
  let timestamp := (inject_Z (Z.of_nat i) * frameInterval)%Q in
  let framePath := path_join frameDir
                     (String.append "frame-" (String.append (show_Z (Z.of_nat i)) ".png")) in
  emit (EvDecodeFrame videoPath timestamp framePath);;
  written ← lift_result id (env_ffmpeg_frame env videoPath timestamp);
  image ← (match written with
           | Some image => mret image
           | None => throw (enoent framePath)
           end);
  processedImage ← resize_if_needed image maxWidth;
  encoded ← encode processedImage outputFormat jpegQuality;
  mret {| vf_timestamp := timestamp;
          vf_base64 := enc_base64 encoded;
          vf_width := or_zero_Z (enc_width encoded);
          vf_height := or_zero_Z (enc_height encoded) |}.

(** The sequential [for] loop with [await] in its body. *)
Fixpoint for_each_seq {A} (f : nat -> M A) (is : list nat) : M (list A) :=
  match is with
  | [] => mret []
  | i :: is' => x ← f i; xs ← for_each_seq f is'; mret (x :: xs)
  end.

(** [extractFrames(videoPath, { maxFrames, interval, maxWidth, outputFormat,
    jpegQuality })]. *)
Definition extractFrames (videoPath : string) (maxFrames : Q) (interval : option Q)
    (maxWidth : Q) (outputFormat : img_format) (jpegQuality : Q) : M (list VideoFrame) :=
  ensureTempDir;;
  env ← ask;
  let frameDir := path_join (tempDir env)
                    (String.append "frames-" (show_Z (env_now env))) in
  emit (EvMkdir frameDir);;
  lift_result id (env_mkdir env frameDir);;
  metadata ← getMetadata videoPath;
  let frameInterval := extractFrames_interval (duration metadata) maxFrames interval in
  let totalFrames := extractFrames_total (duration metadata) maxFrames frameInterval in
  try_finally
    (for_each_seq
       (extractFrames_one videoPath frameDir frameInterval maxWidth outputFormat jpegQuality)
       (List.seq 0 (Z.to_nat (Qceiling totalFrames))))
    (emit (EvRm frameDir)).

(** [extractAudio(videoPath, { format, bitrate, startTime, endTime })]. *)
Definition extractAudio (videoPath : string) (fmt : audio_format) (bitrate : string)
    (startTime endTime : option Q) : M string :=
  ensureTempDir;;
  env ← ask;
  let audioPath :=
    path_join (tempDir env)
      (String.append "audio-" (String.append (show_Z (env_now env))
                                 (String.append "." (audio_ext fmt)))) in
  let command :=
    {| ac_input := videoPath;
       ac_seek := startTime;
       ac_duration := match endTime, startTime with
                      | Some e, Some st => Some (e - st)%Q
                      | _, _ => None
                      end;
       ac_codec := match fmt with Mp3 => "libmp3lame" | Wav => "pcm_s16le" end;
       ac_bitrate := match fmt with Mp3 => Some bitrate | Wav => None end;
       ac_output := audioPath |} in
  emit (EvExtractAudio command);;
  lift_result (String.append "Failed to extract audio: ") (env_ffmpeg_audio env command);;
  mret audioPath.

Record VideoAnalysis := {
  va_metadata : VideoMetadata;
  va_frames : list VideoFrame;
  va_audioPath : option string
}.

(** [analyzeVideo(videoPath, { extractFrames, maxFrames, extractAudio,
    frameInterval })]. *)
Definition analyzeVideo (videoPath : string) (shouldExtractFrames : bool) (maxFrames : Q)
    (shouldExtractAudio : bool) (frameInterval : option Q) : M VideoAnalysis :=
  metadata ← getMetadata videoPath;
  frames ← (if shouldExtractFrames
            then extractFrames videoPath maxFrames frameInterval 1920 Jpeg 80
            else mret []);
  audioPath ← (if shouldExtractAudio && hasAudio metadata
               then try_catch (extractAudio videoPath Mp3 "128k" None None)
               else mret None);
  mret {| va_metadata := metadata; va_frames := frames; va_audioPath := audioPath |}.

Record TokenEstimate := {
  te_metadata : Q;
  te_perFrame : jsnum;
  te_total : jsnum;
  te_warning : option string
}.

(** [estimateTokens(videoPath, { frameCount })]. *)
Definition estimateTokens (videoPath : string) (frameCount : Q) : M TokenEstimate :=
  metadata ← getMetadata videoPath;
  let perFrameTokens := estimateFrameTokens (width metadata) (height metadata) in
  let totalFrameTokens := js_mul (JFin frameCount) perFrameTokens in
  let total := js_add (JFin BASE_METADATA_TOKENS) totalFrameTokens in
  mret {| te_metadata := BASE_METADATA_TOKENS;
          te_perFrame := perFrameTokens;
          te_total := total;
          te_warning :=
            if js_gt total WARNING_TOKEN_THRESHOLD
            then Some (String.append "Estimated "
                         (String.append (show_jsnum (js_round (js_mul total (JFin (1 # 1000)))))
                            "K tokens exceeds recommended limit. Consider reducing frame count or fetching frames progressively."))
            else None |}.

(* ------------------------------------------------------------------------- *)
(** ** JSON views of the results *)

Definition json_of_opt_str (key : string) (o : option string) : list (string * json) :=
  match o with Some s => [(key, JStr s)] | None => [] end.

Definition aspect_name (a : aspect) : string :=
  match a with
  | AspDuration => "duration" | AspResolution => "resolution"
  | AspAudio => "audio" | AspFormat => "format"
  end.

Definition json_of_analysisHint (h : AnalysisHint) : json :=
  JObj ([("aspect", JStr (aspect_name (ah_aspect h)));
         ("recommendation", JStr (ah_recommendation h))]
        ++ match ah_parameters h with Some ps => [("parameters", JObj ps)] | None => [] end).

Definition json_of_summary (s : VideoMetadataSummary) : json :=
  JObj [("durationFormatted", JStr (durationFormatted s));
        ("resolution", JStr (resolution s));
        ("humanDescription", JStr (humanDescription s));
        ("analysisHints", JArr (map json_of_analysisHint (analysisHints s)))].

Definition json_of_frameReference (f : FrameReference) : json :=
  JObj [("index", JNum (inject_Z (fr_index f)));
        ("timestamp", JNum (fr_timestamp f));
        ("timestampFormatted", JStr (fr_timestampFormatted f));
        ("resolution", JStr (fr_resolution f));
        ("estimatedTokens", json_of_jsnum (fr_estimatedTokens f))].

Definition hint_type_name (t : hint_type) : string :=
  match t with
  | HAction => "action" | HWarning => "warning"
  | HInfo => "info" | HSuggestion => "suggestion"
  end.

Definition json_of_contextHint (h : ContextHint) : json :=
  JObj ([("type", JStr (hint_type_name (ch_type h)));
         ("message", JStr (ch_message h))]
        ++ json_of_opt_str "suggestedTool" (ch_suggestedTool h)
        ++ [("priority", JNum (inject_Z (ch_priority h)))]).

(* ------------------------------------------------------------------------- *)
(** ** The tool handlers of the server *)

Inductive content_item :=
| CText (j : json)                       (* text: JSON.stringify(j) *)
| CImage (data : string) (mimeType : string).

Record ToolResponse := {
  tr_content : list content_item;
  tr_isError : bool
}.

Definition text_response (j : json) : ToolResponse :=
  {| tr_content := [CText j]; tr_isError := false |}.

(** The arguments of each tool, [None] for an absent optional argument. *)
Inductive ToolCall :=
| TGetVideoOverview (videoPath : string) (frameCount : option Q)
| TGetVideoMetadata (videoPath : string)
| TEstimateAnalysisCost (videoPath : string) (frameCount : option Q)
| TGetFrame (videoPath : string) (timestamp : Q) (maxWidth : option Q)
    (fmt : option img_format) (quality : option Q)
| TGetFramesBatch (videoPath : string) (timestamps : list Q) (maxWidth : option Q)
    (fmt : option img_format)
| TExtractAudio (videoPath : string) (fmt : option audio_format) (bitrate : option string)
    (startTime endTime : option Q)
| TAnalyzeVideoFull (videoPath : string) (maxFrames : option Q) (extractAudio : option bool)
    (frameInterval : option Q)
| TUnknown (name : string).

Definition TOOL_NAMES : list string :=
  ["get_video_overview"; "get_video_metadata"; "estimate_analysis_cost"; "get_frame";
   "get_frames_batch"; "extract_audio"; "analyze_video_full"].

Definition default {A} (o : option A) (d : A) : A :=
  match o with Some a => a | None => d end.

(** [checkFile]: [fs.access] succeeds. *)
Definition checkFile (filePath : string) : M bool :=
  env ← ask; emit (EvAccess filePath);; mret (env_access env filePath).

Definition not_found (videoPath : string) : ToolResponse :=
  text_response (JObj [("success", JBool false);
                       ("error", JStr (String.append "File not found: " videoPath))]).

Definition handle_get_video_overview (videoPath : string) (frameCount : option Q)
  : M ToolResponse :=
  let frameCount := default frameCount 10%Q in
  ok ← checkFile videoPath;
  if negb ok then
    mret (text_response
            (JObj [("success", JBool false);
                   ("error", JStr (String.append "File not found: " videoPath));
                   ("hint", JStr "Please provide an absolute path to an existing video file.")]))
  else
    overview ← getVideoOverview videoPath frameCount;
    mret (text_response
      (JObj [("success", JBool true);
             ("overview",
               JObj [("filename", JStr (ov_filename overview));
                     ("metadata", json_of_summary (ov_metadata overview));
                     ("audio",
                       JObj ([("available", JBool (ov_audio_available overview))]
                             ++ match ov_audio_durationSeconds overview with
                                | Some d => [("durationSeconds", JNum d)]
                                | None => []
                                end));
                     ("availableFrames",
                       JArr (map json_of_frameReference (ov_availableFrames overview)))]);
             ("contextHints", JArr (map json_of_contextHint (ov_contextHints overview)));
             ("nextSteps",
               JArr [JStr "Use get_frame with a specific timestamp to fetch frame data for visual analysis";
                     JStr "Use extract_audio if you need to transcribe spoken content"])])).

Definition kbps (bitrate : Q) : string :=
  String.append (show_Z (Qround_js (bitrate / 1000))) " kbps".

Definition handle_get_video_metadata (videoPath : string) : M ToolResponse :=
  ok ← checkFile videoPath;
  if negb ok then mret (not_found videoPath)
  else
    metadata ← getMetadata videoPath;
    summary ← getMetadataSummary videoPath;
    mret (text_response
      (JObj [("success", JBool true);
             ("filename", JStr (basename videoPath));
             ("summary", JStr (humanDescription summary));
             ("metadata",
               JObj [("duration", JStr (durationFormatted summary));
                     ("durationSeconds", JNum (duration metadata));
                     ("resolution", JStr (resolution summary));
                     ("fps", JNum (fps metadata));
                     ("codec", JStr (codec metadata));
                     ("format", JStr (format metadata));
                     ("bitrate", JStr (kbps (bitrate metadata)));
                     ("hasAudio", JBool (hasAudio metadata))]);
             ("analysisHints", JArr (map json_of_analysisHint (analysisHints summary)))])).

Definition handle_estimate_analysis_cost (videoPath : string) (frameCount : option Q)
  : M ToolResponse :=
  let frameCount := default frameCount 10%Q in
  ok ← checkFile videoPath;
  if negb ok then mret (not_found videoPath)
  else
    estimate ← estimateTokens videoPath frameCount;
    mret (text_response
      (JObj [("success", JBool true);
             ("estimate",
               JObj ([("metadataTokens", JNum (te_metadata estimate));
                      ("tokensPerFrame", json_of_jsnum (te_perFrame estimate));
                      ("totalForFrames",
                        json_of_jsnum (js_mul (JFin frameCount) (te_perFrame estimate)));
                      ("totalEstimated", json_of_jsnum (te_total estimate))]
                     ++ json_of_opt_str "warning" (te_warning estimate)));
             ("recommendation",
               JStr (if te_warning estimate
                     then "Consider using progressive frame fetching (get_frame) instead of full analysis"
                     else "Context budget is manageable for this analysis"))])).

Definition handle_get_frame (videoPath : string) (timestamp : Q) (maxWidth : option Q)
    (fmt : option img_format) (quality : option Q) : M ToolResponse :=
  let maxWidth := default maxWidth 1920%Q in
  let fmt := default fmt Jpeg in
  let quality := default quality 80%Q in
  ok ← checkFile videoPath;
  if negb ok then mret (not_found videoPath)
  else
    frame ← extractSingleFrame videoPath timestamp maxWidth fmt quality;
    mret {| tr_content :=
              [CText (JObj [("success", JBool true);
                            ("frame",
                              JObj [("timestamp", JNum (fr_timestamp (fd_ref frame)));
                                    ("timestampFormatted", JStr (fr_timestampFormatted (fd_ref frame)));
                                    ("resolution", JStr (fr_resolution (fd_ref frame)));
                                    ("mimeType", JStr (fd_mimeType frame));
                                    ("estimatedTokens", json_of_jsnum (fr_estimatedTokens (fd_ref frame)))])]);
               CImage (fd_base64 frame) (fd_mimeType frame)];
            tr_isError := false |}.

Definition json_of_batch_frame (f : FrameData) : json :=
  JObj [("timestamp", JNum (fr_timestamp (fd_ref f)));
        ("timestampFormatted", JStr (fr_timestampFormatted (fd_ref f)));
        ("resolution", JStr (fr_resolution (fd_ref f)));
        ("estimatedTokens", json_of_jsnum (fr_estimatedTokens (fd_ref f)))].

Definition handle_get_frames_batch (videoPath : string) (timestamps : list Q)
    (maxWidth : option Q) (fmt : option img_format) : M ToolResponse :=
  let maxWidth := default maxWidth 1920%Q in
  let fmt := default fmt Jpeg in
  ok ← checkFile videoPath;
  if negb ok then mret (not_found videoPath)
  else
    (* Limit to 5 frames for context management *)
    let limitedTimestamps := firstn 5 timestamps in
    frames ← promise_all_frames videoPath limitedTimestamps maxWidth fmt 80%Q;
    mret {| tr_content :=
              CText (JObj [("success", JBool true);
                           ("framesExtracted", jnat (length frames));
                           ("totalTimestampsRequested", jnat (length timestamps));
                           ("limited", JBool (Nat.ltb 5 (length timestamps)));
                           ("frames", JArr (map json_of_batch_frame frames))])
              :: map (fun f => CImage (fd_base64 f) (fd_mimeType f)) frames;
            tr_isError := false |}.

Definition handle_extract_audio (videoPath : string) (fmt : option audio_format)
    (bitrate : option string) (startTime endTime : option Q) : M ToolResponse :=
  let fmt := default fmt Mp3 in
  let bitrate := default bitrate "128k" in
  ok ← checkFile videoPath;
  if negb ok then mret (not_found videoPath)
  else
    (* Check if video has audio *)
    metadata ← getMetadata videoPath;
    if negb (hasAudio metadata) then
      mret (text_response (JObj [("success", JBool false);
                                 ("error", JStr "Video does not have an audio track")]))
    else
      audioPath ← extractAudio videoPath fmt bitrate startTime endTime;
      mret (text_response
        (JObj [("success", JBool true);
               ("audioPath", JStr audioPath);
               ("format", JStr (audio_ext fmt));
               ("segment",
                 match startTime with
                 | Some st =>
                     JObj [("startTime", JNum st);
                           ("endTime",
                             JNum (match endTime with
                                   | Some e => if Qeq_bool e 0 then duration metadata else e
                                   | None => duration metadata
                                   end))]
                 | None => JStr "full"
                 end);
               ("nextStep", JStr "Use this audio path with a transcription service to get the spoken content.")])).

Fixpoint json_of_full_frames (i : nat) (fs : list VideoFrame) : list json :=
  match fs with
  | [] => []
  | f :: fs' =>
      JObj [("index", jnat (S i));
            ("timestamp", JNum (vf_timestamp f));
            ("timestampFormatted", JStr (formatTimestamp (vf_timestamp f)));
            ("resolution", JStr (String.append (show_Z (vf_width f))
                                   (String.append "x" (show_Z (vf_height f)))))]
      :: json_of_full_frames (S i) fs'
  end.

Definition handle_analyze_video_full (videoPath : string) (maxFrames : option Q)
    (extractAudio : option bool) (frameInterval : option Q) : M ToolResponse :=
  let maxFrames := default maxFrames 8%Q in
  let extractAudio := default extractAudio true in
  ok ← checkFile videoPath;
  if negb ok then mret (not_found videoPath)
  else
    estimate ← estimateTokens videoPath maxFrames;
    analysis ← analyzeVideo videoPath true (Qmin_js maxFrames 15) extractAudio frameInterval;
    summary ← getMetadataSummary videoPath;
    mret {| tr_content :=
              CText (JObj ([("success", JBool true)]
                       ++ json_of_opt_str "contextWarning" (te_warning estimate)
                       ++ [("video",
                             JObj [("filename", JStr (basename videoPath));
                                   ("summary", JStr (humanDescription summary));
                                   ("duration", JStr (durationFormatted summary));
                                   ("resolution", JStr (resolution summary))]);
                           ("metadata",
                             JObj [("durationSeconds", JNum (duration (va_metadata analysis)));
                                   ("fps", JNum (fps (va_metadata analysis)));
                                   ("codec", JStr (codec (va_metadata analysis)));
                                   ("format", JStr (format (va_metadata analysis)));
                                   ("bitrate", JStr (kbps (bitrate (va_metadata analysis))));
                                   ("hasAudio", JBool (hasAudio (va_metadata analysis)))]);
                           ("framesExtracted", jnat (length (va_frames analysis)));
                           ("frames", JArr (json_of_full_frames 0 (va_frames analysis)));
                           ("audioExtracted", JBool (if va_audioPath analysis then true else false))]
                       ++ json_of_opt_str "audioPath" (va_audioPath analysis)))
              :: map (fun f => CImage (vf_base64 f) "image/jpeg") (va_frames analysis);
            tr_isError := false |}.

Definition handle_unknown (name : string) : M ToolResponse :=
  mret (text_response
    (JObj [("success", JBool false);
           ("error", JStr (String.append "Unknown tool: " name));
           ("availableTools", JArr (map JStr TOOL_NAMES))])).

(** The [catch] of the request handler: a thrown error becomes an error
    response. *)
Definition catch_to_response (m : M ToolResponse) : M ToolResponse := fun env s =>
  match m env s with
  | (s1, t1, inl r) => (s1, t1, inl r)
  | (s1, t1, inr e) =>
      (s1, t1, inl {| tr_content :=
                        [CText (JObj [("success", JBool false);
                                      ("error", JStr e);
                                      ("hint", JStr "Check that the video file exists and is in a supported format.")])];
                      tr_isError := true |})
  end.

(** The [CallToolRequestSchema] handler. *)
Definition callTool (call : ToolCall) : M ToolResponse :=
  catch_to_response
    (match call with
     | TGetVideoOverview p fc => handle_get_video_overview p fc
     | TGetVideoMetadata p => handle_get_video_metadata p
     | TEstimateAnalysisCost p fc => handle_estimate_analysis_cost p fc
     | TGetFrame p ts mw f q => handle_get_frame p ts mw f q
     | TGetFramesBatch p tss mw f => handle_get_frames_batch p tss mw f
     | TExtractAudio p f b st et => handle_extract_audio p f b st et
     | TAnalyzeVideoFull p mf ea fi => handle_analyze_video_full p mf ea fi
     | TUnknown name => handle_unknown name
     end).

(** A client session: the tool calls served one after the other by the same
    server (one [VideoProcessor], whose frame cache persists between calls). *)
Fixpoint session (calls : list ToolCall) : M (list ToolResponse) :=
  match calls with
  | [] => mret []
  | c :: cs => r ← callTool c; rs ← session cs; mret (r :: rs)
  end.

(** The video path a tool call names, if any. *)
Definition call_path (call : ToolCall) : option string :=
  match call with
  | TGetVideoOverview p _ | TGetVideoMetadata p | TEstimateAnalysisCost p _
  | TGetFrame p _ _ _ _ | TGetFramesBatch p _ _ _ | TExtractAudio p _ _ _ _
  | TAnalyzeVideoFull p _ _ _ => Some p
  | TUnknown _ => None
  end.

(* ------------------------------------------------------------------------- *)
(** ** Sample environments (concrete inputs) *)

(** A probe of a file with one video stream of [w] x [h] and an audio stream
    when [audio]. *)
Definition sample_probe (dur : Q) (w h : Z) (audio : bool) : ProbeData :=
  {| streams :=
       {| codec_type := "video"; ps_width := Some w; ps_height := Some h;
          r_frame_rate := 30%Q; codec_name := Some "h264" |}
       :: (if audio
           then [{| codec_type := "audio"; ps_width := None; ps_height := None;
                    r_frame_rate := 0%Q; codec_name := Some "aac" |}]
           else []);
     fmt_duration := Some dur;
     fmt_format_name := Some "mov,mp4,m4a,3gp,3g2,mj2";
     fmt_bit_rate := Some 5000000%Q |}.

(** A probe whose video stream reports no width (ffprobe leaves [width]
    out for streams it cannot size). *)
Definition widthless_probe (dur : Q) (h : Z) : ProbeData :=
  {| streams :=
       [{| codec_type := "video"; ps_width := None; ps_height := Some h;
           r_frame_rate := 30%Q; codec_name := Some "h264" |}];
     fmt_duration := Some dur;
     fmt_format_name := Some "mov,mp4,m4a,3gp,3g2,mj2";
     fmt_bit_rate := Some 5000000%Q |}.

(** sharp's [resize(maxWidth, null, { fit: 'inside' })] on the metadata;
    sharp throws unless [maxWidth] is a positive integer. *)
Definition sample_resize (im : Image) (maxWidth : Q) : Image + string :=
  if Qlt_bool 0 maxWidth && Qeq_bool (inject_Z (Qfloor maxWidth)) maxWidth
  then inl match img_width im, img_height im with
           | Some w, Some h =>
               {| img_width := Some (Qfloor maxWidth);
                  img_height := Some (Qround_js (inject_Z (Qfloor maxWidth * h) / inject_Z w)) |}
           | _, _ => im
           end
  else inr "Expected positive integer for width but received a number of another kind".

Definition sample_encode (im : Image) (f : img_format) (q : Q) : Encoded + string :=
  inl {| enc_base64 := "iVBORw0KGgo="; enc_width := img_width im; enc_height := img_height im |}.

(** An environment whose decoder [decode] answers the frame requests. *)
Definition sample_env_with (dur : Q) (w h : Z) (audio : bool)
    (decode : Q -> option Image + string) : Env :=
  {| env_access := fun _ => true;
     env_ffprobe := fun _ => inl (sample_probe dur w h audio);
     env_stat_size := fun _ => Some 1048576;
     env_mkdir := fun _ => inl tt;
     env_ffmpeg_frame := fun _ ts => decode ts;
     env_sharp_resize := sample_resize;
     env_sharp_encode := sample_encode;
     env_ffmpeg_audio := fun _ => inl tt;
     env_tmpdir := "/tmp";
     env_now := 1700000000000;
     env_sched := fun _ => O;
     env_clock := fun k => 1700000000000 + Z.of_nat k |}.

(** A decoder that rejects timestamps outside [0, dur). *)
Definition range_decoder (dur : Q) (w h : Z) (ts : Q) : option Image + string :=
  if Qle_bool 0 ts && Qlt_bool ts dur
  then inl (Some {| img_width := Some w; img_height := Some h |})
  else inr "Output file is empty, nothing was encoded".

(** A decoder that yields a frame at any timestamp, as ffmpeg does for a
    negative input seek (it starts from the first frame). *)
Definition lenient_decoder (w h : Z) (ts : Q) : option Image + string :=
  inl (Some {| img_width := Some w; img_height := Some h |}).

(** [env] with the probe replaced. *)
Definition with_probe (env : Env) (probe : string -> ProbeData + string) : Env :=
  {| env_access := env_access env;
     env_ffprobe := probe;
     env_stat_size := env_stat_size env;
     env_mkdir := env_mkdir env;
     env_ffmpeg_frame := env_ffmpeg_frame env;
     env_sharp_resize := env_sharp_resize env;
     env_sharp_encode := env_sharp_encode env;
     env_ffmpeg_audio := env_ffmpeg_audio env;
     env_tmpdir := env_tmpdir env;
     env_now := env_now env;
     env_sched := env_sched env;
     env_clock := env_clock env |}.

(** [env] with the file-access check replaced. *)
Definition with_access (env : Env) (access : string -> bool) : Env :=
  {| env_access := access;
     env_ffprobe := env_ffprobe env;
     env_stat_size := env_stat_size env;
     env_mkdir := env_mkdir env;
     env_ffmpeg_frame := env_ffmpeg_frame env;
     env_sharp_resize := env_sharp_resize env;
     env_sharp_encode := env_sharp_encode env;
     env_ffmpeg_audio := env_ffmpeg_audio env;
     env_tmpdir := env_tmpdir env;
     env_now := env_now env;
     env_sched := env_sched env;
     env_clock := env_clock env |}.

Definition sample_env (dur : Q) (w h : Z) (audio : bool) : Env :=
  sample_env_with dur w h audio (range_decoder dur w h).

Definition empty_state : ProcState := {| frameCache := ∅ |}.

(** The metadata [getMetadata] reads from [sample_probe]. *)
Definition sample_metadata (dur : Q) (w h : Z) (audio : bool) : VideoMetadata :=
  {| duration := dur; width := w; height := h; fps := 30; codec := "h264";
     format := "mov,mp4,m4a,3gp,3g2,mj2"; bitrate := 5000000; hasAudio := audio;
     audioCodec := if audio then Some "aac" else None; fileSize := Some 1048576 |}.

(* ------------------------------------------------------------------------- *)
(** ** Observations of a run *)

Definition run_state {A} (m : M A) (env : Env) (s : ProcState) : ProcState := (fst (m env s)).1.
Definition run_trace {A} (m : M A) (env : Env) (s : ProcState) : list event := (fst (m env s)).2.
Definition run_result {A} (m : M A) (env : Env) (s : ProcState) : A + string := snd (m env s).

(** Every collaborator call of [m] satisfies [P]. *)
Definition emits_only {A} (P : event -> Prop) (m : M A) : Prop :=
  forall env s, Forall P (run_trace m env s).

(** The calls of a metadata lookup of [p]: access check, probe, stat. *)
Definition metadata_event (p : string) (e : event) : Prop :=
  match e with
  | EvAccess q | EvProbe q | EvStat q => q = p
  | _ => False
  end.

(** The frame requests made to the decoder. *)
Definition decode_requests (t : list event) : list (string * Q) :=
  List.flat_map (fun e => match e with
                          | EvDecodeFrame p ts _ => [(p, ts)]
                          | _ => []
                          end) t.

(** Descending priority order. *)
(** [m] asks the decoder for at most [n] frames. *)
Definition decodes_at_most {A} (n : nat) (m : M A) : Prop :=
  forall env s, (length (decode_requests (run_trace m env s)) <= n)%nat.

(** [e] is not a run of the audio extractor. *)
Definition no_audio_event (e : event) : Prop :=
  match e with EvExtractAudio _ => true | _ => false end = false.

Definition priority_desc (a b : ContextHint) : Prop := ch_priority b <= ch_priority a.

(** [m] leaves the processor state unchanged. *)
Definition keeps_state {A} (m : M A) : Prop := forall env s, run_state m env s = s.

(** Every value [m] returns satisfies [P]. *)
Definition returns_only {A} (P : A -> Prop) (m : M A) : Prop :=
  forall env s a, run_result m env s = inl a -> P a.

(** A run's observable output: its collaborator calls and its result. *)
Definition observe {A} (m : M A) (env : Env) (s : ProcState) : list event * (A + string) :=
  (run_trace m env s, run_result m env s).

(** [m]'s observable output does not depend on the initial processor state. *)
Definition state_blind {A} (m : M A) : Prop :=
  forall env s1 s2, observe m env s1 = observe m env s2.

(* ========================================================================= *)
(** * Proofs *)

(** ** Collaborator calls: compositional lemmas *)

Section EmitsOnly.
Context (P : event -> Prop).

Lemma only_ret {A} (a : A) : emits_only P (mret a).
Proof. intros env s. constructor. Qed.

Lemma only_bind {A B} (m : M A) (k : A -> M B) :
  emits_only P m -> (forall a, emits_only P (k a)) -> emits_only P (mbind k m).
Proof.
  intros Hm Hk env s. specialize (Hm env s). unfold run_trace in *.
  unfold mbind, M_bind. destruct (m env s) as [[s1 t1] [a|e]]; cbn in *; [|exact Hm].
  specialize (Hk a env s1). unfold run_trace in Hk.
  destruct (k a env s1) as [[s2 t2] r2]; cbn in *.
  apply Forall_app; split; auto.
Qed.

Lemma only_ask : emits_only P ask.
Proof. intros env s. constructor. Qed.

Lemma only_emit ev : P ev -> emits_only P (emit ev).
Proof. intros H env s. repeat constructor; auto. Qed.

Lemma only_throw {A} e : emits_only P (@throw A e).
Proof. intros env s. constructor. Qed.

Lemma only_lift_result {A} w (r : A + string) : emits_only P (lift_result w r).
Proof. destruct r; [apply only_ret | apply only_throw]. Qed.

Lemma only_cache_set k v : emits_only P (cache_set k v).
Proof. intros env s. constructor. Qed.

Lemma only_catch_to_response m : emits_only P m -> emits_only P (catch_to_response m).
Proof.
  intros H env s. specialize (H env s). unfold run_trace, catch_to_response in *.
  destruct (m env s) as [[s1 t1] [r|e]]; exact H.
Qed.

End EmitsOnly.

Ltac only_tac :=
  repeat (cbv beta zeta;
    first
    [ apply only_bind; [| intros ?]
    | apply only_ret
    | apply only_ask
    | apply only_throw
    | apply only_lift_result
    | apply only_cache_set
    | apply only_emit; cbn; reflexivity
    | match goal with
      | |- emits_only _ (match ?x with _ => _ end) => destruct x
      | |- emits_only _ (if ?x then _ else _) => destruct x
      end ]).

Lemma getMetadata_emits (p : string) :
  emits_only (metadata_event p) (getMetadata p).
Proof. unfold getMetadata. only_tac. Qed.

Lemma getMetadataSummary_emits (p : string) :
  emits_only (metadata_event p) (getMetadataSummary p).
Proof.
  unfold getMetadataSummary. apply only_bind; [apply getMetadata_emits|].
  intros. apply only_ret.
Qed.

Lemma getVideoOverview_emits (p : string) (frameCount : Q) :
  emits_only (metadata_event p) (getVideoOverview p frameCount).
Proof.
  unfold getVideoOverview.
  apply only_bind; [apply getMetadata_emits | intros md].
  apply only_bind; [apply getMetadataSummary_emits | intros sm].
  only_tac.
Qed.

(** C1: the overview operation, as a processor method and as the
    [get_video_overview] tool, makes no collaborator call other than the
    file-access check, the metadata probe and the file-size stat of the
    given path: in particular it never asks the frame decoder for a frame
    and never runs the audio extractor, whatever the path and frame count. *)
Theorem get_video_overview_never_extracts :
  forall (env : Env) (s : ProcState) (videoPath : string) (frameCount : option Q),
    Forall (metadata_event videoPath)
      (run_trace (callTool (TGetVideoOverview videoPath frameCount)) env s)
    /\ Forall (metadata_event videoPath)
         (run_trace (getVideoOverview videoPath (default frameCount 10%Q)) env s)
    /\ decode_requests (run_trace (callTool (TGetVideoOverview videoPath frameCount)) env s) = []
    /\ Forall (fun e => match e with EvExtractAudio _ => False | _ => True end)
         (run_trace (callTool (TGetVideoOverview videoPath frameCount)) env s).
Proof.
  intros env s p fc.
  assert (Hcall : Forall (metadata_event p)
                    (run_trace (callTool (TGetVideoOverview p fc)) env s)).
  { unfold callTool. apply only_catch_to_response.
    unfold handle_get_video_overview, checkFile. cbv zeta.
    apply only_bind; [only_tac|]. intros ok.
    destruct (negb ok); [apply only_ret|].
    apply only_bind; [apply getVideoOverview_emits|]. intros. apply only_ret. }
  split; [exact Hcall|]. split; [apply getVideoOverview_emits|]. split.
  - induction Hcall as [|e t He _ IH]; [reflexivity|].
    destruct e; cbn in *; try contradiction; exact IH.
  - eapply Forall_impl; [exact Hcall|]. intros [] H; cbn in *; auto.
Qed.

(** ** Frame planner *)

Lemma Qlt_bool_iff (x y : Q) : Qlt_bool x y = true <-> (x < y)%Q.
Proof.
  unfold Qlt_bool. rewrite negb_true_iff. split.
  - intros H. apply Qnot_le_lt. intros H'. apply Qle_bool_iff in H'. congruence.
  - intros H. destruct (Qle_bool y x) eqn:E; [|reflexivity].
    apply Qle_bool_iff in E. exfalso. exact (Qlt_not_le _ _ H E).
Qed.

Lemma Qlt_bool_false_iff (x y : Q) : Qlt_bool x y = false <-> (y <= x)%Q.
Proof.
  unfold Qlt_bool. rewrite negb_false_iff. apply Qle_bool_iff.
Qed.

Lemma filter_all_false {A} (f : A -> bool) (l : list A) :
  (forall x, In x l -> f x = false) -> List.filter f l = [].
Proof.
  induction l as [|x l IH]; intros H; [reflexivity|]. cbn.
  rewrite (H x (or_introl eq_refl)). apply IH. intros y Hy. apply H. right. exact Hy.
Qed.

(** The loop of [getVideoOverview], as long as [i < frameCount] holds: the
    timestamps [j * frameInterval] below the duration, the loop stopping at
    the first one that is not. *)
Lemma frames_loop_timestamps (fuel i : nat) (md : VideoMetadata) (n iv : Z) :
  Z.of_nat (i + fuel) <= n -> 0 < iv ->
  map fr_timestamp (frames_loop fuel i md (inject_Z n) iv)
  = List.filter (fun t => Qlt_bool t (duration md))
      (map (fun j => inject_Z (Z.of_nat j * iv)) (seq i fuel)).
Proof.
  revert i. induction fuel as [|fuel IH]; intros i Hn Hiv; [reflexivity|].
  cbn [frames_loop seq map List.filter].
  assert (Hi : Qlt_bool (inject_Z (Z.of_nat i)) (inject_Z n) = true).
  { apply Qlt_bool_iff. rewrite <- Zlt_Qlt. lia. }
  rewrite Hi. cbn [andb].
  destruct (Qlt_bool (inject_Z (Z.of_nat i * iv)) (duration md)) eqn:E.
  - cbn [map]. f_equal. apply IH; [lia | exact Hiv].
  - cbn [map]. symmetry. apply filter_all_false.
    intros t Ht. apply in_map_iff in Ht as [j [<- Hj]]. apply in_seq in Hj.
    apply Qlt_bool_false_iff. apply Qlt_bool_false_iff in E.
    eapply Qle_trans; [exact E|]. rewrite <- Zle_Qle. nia.
Qed.

Lemma MAX_VALUE_lt_limit : (MAX_VALUE < OVERFLOW_LIMIT)%Q.
Proof. unfold MAX_VALUE, OVERFLOW_LIMIT. rewrite <- Zlt_Qlt. vm_compute. reflexivity. Qed.

Lemma OVERFLOW_LIMIT_pos : (0 < OVERFLOW_LIMIT)%Q.
Proof. unfold OVERFLOW_LIMIT. change 0%Q with (inject_Z 0). rewrite <- Zlt_Qlt. vm_compute. reflexivity. Qed.

(** Dividing a double by a count of at least one never overflows. *)
Lemma frameInterval_js_fin (d : Q) (n : Z) :
  1 <= n -> frameInterval_js d (inject_Z n) = IvFin (frameInterval_of d (inject_Z n)).
Proof.
  intros Hn. unfold frameInterval_js.
  destruct (Qle_bool d MAX_VALUE) eqn:E; [|reflexivity].
  destruct (Qle_bool OVERFLOW_LIMIT (d / inject_Z n)) eqn:E2; [|reflexivity].
  exfalso. apply Qle_bool_iff in E, E2.
  assert (Hn' : (1 <= inject_Z n)%Q)
    by (change 1%Q with (inject_Z 1); rewrite <- Zle_Qle; exact Hn).
  pose proof MAX_VALUE_lt_limit as Hl. pose proof OVERFLOW_LIMIT_pos as Hp.
  assert (H : (d / inject_Z n < OVERFLOW_LIMIT)%Q).
  { apply Qlt_shift_div_r; [lra|]. nra. }
  lra.
Qed.

Lemma planFrames_timestamps (md : VideoMetadata) (n : Z) :
  1 <= n ->
  map fr_timestamp (planFrames md (inject_Z n))
  = List.filter (fun t => Qlt_bool t (duration md))
      (map (fun i => inject_Z (Z.of_nat i * frameInterval_of (duration md) (inject_Z n)))
           (seq 0 (Z.to_nat n))).
Proof.
  intros Hn. unfold planFrames. rewrite frameInterval_js_fin by exact Hn. rewrite Qceiling_Z.
  apply frames_loop_timestamps; [lia|]. unfold frameInterval_of. lia.
Qed.

(** C2: for [n >= 1] the planner uses the interval
    [max(1, floor(d / n))] and emits the timestamps [i * interval],
    [i = 0 .. n-1], keeping them only while they are strictly below the
    duration [d]; the timestamps depend on [(d, n)] alone; and for
    [d = 100], [n = 10] they are exactly [0, 10, ..., 90]. *)
Theorem planFrames_interval_and_boundary :
  forall (md : VideoMetadata) (n : Z),
    1 <= n ->
    frameInterval_of (duration md) (inject_Z n) = Z.max 1 (Qfloor (duration md / inject_Z n))
    /\ map fr_timestamp (planFrames md (inject_Z n))
       = List.filter (fun t => Qlt_bool t (duration md))
           (map (fun i => inject_Z (Z.of_nat i * frameInterval_of (duration md) (inject_Z n)))
                (seq 0 (Z.to_nat n)))
    /\ (forall md' : VideoMetadata, duration md' = duration md ->
          map fr_timestamp (planFrames md' (inject_Z n))
          = map fr_timestamp (planFrames md (inject_Z n)))
    /\ (duration md = 100%Q -> n = 10 ->
          map fr_timestamp (planFrames md (inject_Z n))
          = [0; 10; 20; 30; 40; 50; 60; 70; 80; 90]%Q).
Proof.
  intros md n Hn. split; [reflexivity|]. split; [apply planFrames_timestamps; exact Hn|].
  split.
  - intros md' Hd. rewrite !planFrames_timestamps by exact Hn. rewrite Hd. reflexivity.
  - intros Hd ->. rewrite planFrames_timestamps by lia. rewrite Hd. vm_compute. reflexivity.
Qed.

Lemma planFrames_interval_and_boundary_witness :
  1 <= 10
  /\ map fr_timestamp (planFrames (sample_metadata 100 1920 1080 true) (inject_Z 10))
     = [0; 10; 20; 30; 40; 50; 60; 70; 80; 90]%Q.
Proof.
  split; [lia|].
  refine (proj2 (proj2 (proj2
            (planFrames_interval_and_boundary (sample_metadata 100 1920 1080 true) 10 _)))
            _ _); [lia | reflexivity | reflexivity].
Defined.

(** ** Context hints *)

(** Proves [exists h, In h l /\ ch_type h = t /\ ch_priority h = p] on a
    concrete list [l] by trying its elements in turn. *)
Ltac find_hint :=
  match goal with
  | |- exists h, In h ?l /\ _ =>
      let rec go l :=
        match l with
        | ?x :: ?r =>
            first [ exists x; split;
                    [repeat (first [apply in_eq | apply in_cons]) | split; reflexivity]
                  | go r ]
        end in
      go l
  end.


(** C3: the hints of [generateContextHints] are sorted by descending
    priority; the baseline [action] hint of priority 3 is always present;
    the [warning] hint of priority 10 is present exactly when the summed
    estimated tokens of the frame references exceed 50000, and it then comes
    first. *)
Theorem generateContextHints_sorted_warning_first :
  forall (md : VideoMetadata) (frames : list FrameReference),
    let hints := generateContextHints md frames in
    Sorted priority_desc hints
    /\ (exists h, In h hints /\ ch_type h = HAction /\ ch_priority h = 3)
    /\ ((exists h, In h hints /\ ch_type h = HWarning /\ ch_priority h = 10)
        <-> js_gt (totalFrameTokens frames) WARNING_TOKEN_THRESHOLD = true)
    /\ (js_gt (totalFrameTokens frames) WARNING_TOKEN_THRESHOLD = true ->
        exists h rest, hints = h :: rest /\ ch_type h = HWarning /\ ch_priority h = 10).
Proof.
  intros md frames hints. subst hints. unfold generateContextHints.
  cbv zeta.
  destruct (js_gt (totalFrameTokens frames) WARNING_TOKEN_THRESHOLD);
  destruct (Qlt_bool 300 (duration md)); destruct (hasAudio md);
  cbv [js_sort fold_left sort_insert app ch_priority];
  repeat match goal with
         | |- context [(?a <? ?b)%Z] =>
             let v := eval vm_compute in (a <? b)%Z in
             change (a <? b)%Z with v; cbv iota beta
         end.
  all: split;
    [ repeat (first [apply Sorted_cons | apply Sorted_nil | apply HdRel_cons | apply HdRel_nil]);
      unfold priority_desc; cbn; lia |].
  all: split; [find_hint |].
  all: split.
  all: try (split; [intros _; reflexivity | intros _; find_hint]).
  all: try (split; [intros (h & Hin & Ht & _); cbn in Hin;
                    repeat (destruct Hin as [<-|Hin]; [discriminate|]); contradiction
                   | discriminate]).
  all: first [ intros _; do 2 eexists; split; [reflexivity | split; reflexivity]
             | discriminate ].
Qed.

(** ** State preservation and returned values *)

Section KeepsState.

Lemma keeps_ret {A} (a : A) : keeps_state (mret a).
Proof. intros env s. reflexivity. Qed.

Lemma keeps_bind {A B} (m : M A) (k : A -> M B) :
  keeps_state m -> (forall a, keeps_state (k a)) -> keeps_state (mbind k m).
Proof.
  intros Hm Hk env s. specialize (Hm env s). unfold run_state in *.
  unfold mbind, M_bind. destruct (m env s) as [[s1 t1] [a|e]]; cbn in *; [|exact Hm].
  specialize (Hk a env s1). unfold run_state in Hk.
  destruct (k a env s1) as [[s2 t2] r2]; cbn in *. congruence.
Qed.

Lemma keeps_ask : keeps_state ask.
Proof. intros env s. reflexivity. Qed.

Lemma keeps_emit ev : keeps_state (emit ev).
Proof. intros env s. reflexivity. Qed.

Lemma keeps_throw {A} e : keeps_state (@throw A e).
Proof. intros env s. reflexivity. Qed.

Lemma keeps_lift_result {A} w (r : A + string) : keeps_state (lift_result w r).
Proof. destruct r; [apply keeps_ret | apply keeps_throw]. Qed.

Lemma keeps_try_finally {A} (m : M A) fin :
  keeps_state m -> keeps_state fin -> keeps_state (try_finally m fin).
Proof.
  intros Hm Hf env s. specialize (Hm env s). unfold run_state, try_finally in *.
  destruct (m env s) as [[s1 t1] r]. cbn in Hm. subst s1.
  specialize (Hf env s). unfold run_state in Hf.
  destruct (fin env s) as [[s2 t2] r2]. exact Hf.
Qed.

Lemma keeps_promise_all_frames p tss mw fmt q : keeps_state (promise_all_frames p tss mw fmt q).
Proof.
  intros env s. unfold run_state, promise_all_frames.
  destruct (run_frame_tasks _ _ _ _ _ _ _ _ _ _) as [[evs settled] rej]. reflexivity.
Qed.

End KeepsState.

Ltac keeps_tac :=
  repeat (cbv beta zeta;
    first
    [ apply keeps_bind; [| intros ?]
    | apply keeps_try_finally
    | apply keeps_ret
    | apply keeps_ask
    | apply keeps_throw
    | apply keeps_lift_result
    | apply keeps_emit
    | apply keeps_promise_all_frames
    | match goal with
      | |- keeps_state (match ?x with _ => _ end) => destruct x
      | |- keeps_state (if ?x then _ else _) => destruct x
      end ]).

Lemma extractSingleFrame_keeps p ts mw fmt q :
  keeps_state (extractSingleFrame p ts mw fmt q).
Proof.
  unfold extractSingleFrame, ensureTempDir, resize_if_needed, encode. keeps_tac.
Qed.

Lemma returns_bind {A B} (P : B -> Prop) (m : M A) (k : A -> M B) :
  (forall a, returns_only P (k a)) -> returns_only P (mbind k m).
Proof.
  intros Hk env s b. unfold run_result, mbind, M_bind.
  destruct (m env s) as [[s1 t1] [a|e]]; cbn; [|discriminate].
  specialize (Hk a env s1 b). unfold run_result in Hk.
  destruct (k a env s1) as [[s2 t2] r2]; cbn in *. exact Hk.
Qed.

Lemma returns_ret {A} (P : A -> Prop) (a : A) : P a -> returns_only P (mret a).
Proof. intros H env s b Hb. cbn in Hb. injection Hb as <-. exact H. Qed.

Lemma returns_try_finally {A} (P : A -> Prop) (m : M A) fin :
  returns_only P m -> returns_only P (try_finally m fin).
Proof.
  intros Hm env s a. specialize (Hm env s a). unfold run_result, try_finally in *.
  destruct (m env s) as [[s1 t1] r]. destruct (fin env s1) as [[s2 t2] r2]. exact Hm.
Qed.

Lemma extractSingleFrame_timestamp p ts mw fmt q :
  returns_only (fun fd => fr_timestamp (fd_ref fd) = ts) (extractSingleFrame p ts mw fmt q).
Proof.
  unfold extractSingleFrame. apply returns_bind. intros _. apply returns_bind. intros env.
  cbv zeta. apply returns_try_finally.
  apply returns_bind; intros _. apply returns_bind; intros written.
  apply returns_bind; intros img. apply returns_bind; intros img'.
  apply returns_bind; intros enc.
  apply returns_ret. reflexivity.
Qed.

Lemma extractSingleFrame_decode p ts mw fmt q env s :
  decode_requests (run_trace (extractSingleFrame p ts mw fmt q) env s) = [(p, ts)].
Proof.
  unfold run_trace, extractSingleFrame, ensureTempDir, try_finally, resize_if_needed,
    encode, lift_result.
  unfold mbind, M_bind, mret, M_ret, ask, emit. cbn.
  destruct (env_ffmpeg_frame env p ts) as [[img|]|e]; cbn; [|reflexivity|reflexivity].
  destruct (img_width img) as [w|]; cbn.
  - destruct (negb (w =? 0) && Qlt_bool mw (inject_Z w)); cbn;
      [destruct (env_sharp_resize env img mw); cbn; [|reflexivity]|];
      destruct (env_sharp_encode env _ fmt q); reflexivity.
  - destruct (env_sharp_encode env img fmt q); reflexivity.
Qed.

(** ** The concurrent frame extractions of [get_frames_batch] *)

Ltac frame_step_cases :=
  match goal with
  | |- context [env_ffmpeg_frame ?env ?p ?ts] =>
      destruct (env_ffmpeg_frame env p ts) as [[?im|]|?e]; cbn
  | |- context [?files !! ?fp] => destruct (files !! fp) as [?im|]; cbn
  | |- context [img_width ?im] => destruct (img_width im) as [?w|]; cbn
  | |- context [if negb (?w =? 0) && ?b then _ else _] => destruct (negb (w =? 0) && b); cbn
  | |- context [env_sharp_resize ?env ?im ?mw] => destruct (env_sharp_resize env im mw); cbn
  | |- context [env_sharp_encode ?env ?im ?f ?q] => destruct (env_sharp_encode env im f q); cbn
  end.

Lemma frame_task_step_progress env now p mw fmt q files ts t :
  task_settled t = false ->
  (task_measure (frame_task_step env now p mw fmt q files ts t).2 < task_measure t)%nat.
Proof.
  destruct t; cbn; intros H; try discriminate; repeat frame_step_cases; lia.
Qed.

Lemma frame_task_step_decodes env now p mw fmt q files ts t :
  decode_requests (frame_task_step env now p mw fmt q files ts t).1.2
    = match t with FTMkdir => [(p, ts)] | _ => [] end
  /\ match (frame_task_step env now p mw fmt q files ts t).2 with
     | FTMkdir => False | _ => True end.
Proof.
  destruct t; cbn; repeat frame_step_cases; auto.
Qed.

Lemma frame_task_step_outcome env now p mw fmt q files ts t fd :
  (forall fd0, task_outcome t = Some (inl fd0) -> fr_timestamp (fd_ref fd0) = ts) ->
  task_outcome (frame_task_step env now p mw fmt q files ts t).2 = Some (inl fd) ->
  fr_timestamp (fd_ref fd) = ts.
Proof.
  intros Hold. destruct t; cbn; repeat frame_step_cases; intros H; try discriminate;
    try (injection H as <-; reflexivity); apply Hold; exact H.
Qed.

Lemma tasks_measure_insert tasks i x y :
  tasks !! i = Some x ->
  (tasks_measure (<[i := y]> tasks) + task_measure x.2
   = tasks_measure tasks + task_measure y.2)%nat.
Proof.
  unfold tasks_measure. revert i.
  induction tasks as [|z tasks IH]; intros [|i] H; cbn in *; try discriminate.
  - injection H as ->. lia.
  - unfold insert in *. specialize (IH i H). lia.
Qed.

Lemma tasks_measure_unsettled tasks x :
  In x tasks -> task_settled x.2 = false -> (0 < tasks_measure tasks)%nat.
Proof.
  unfold tasks_measure. induction tasks as [|z tasks IH]; intros Hin Hs; [destruct Hin|].
  destruct Hin as [<-|Hin]; cbn.
  - destruct z as [ts []]; cbn in *; try discriminate; lia.
  - specialize (IH Hin Hs). lia.
Qed.

Lemma pending_spec tasks i :
  In i (pending tasks) <-> exists x, tasks !! i = Some x /\ task_settled x.2 = false.
Proof.
  unfold pending. rewrite List.filter_In, in_seq. split.
  - intros [_ H]. destruct (tasks !! i) as [x|] eqn:E; [|discriminate].
    exists x. split; [reflexivity|]. destruct (task_settled x.2); [discriminate|reflexivity].
  - intros [x [E H]]. split.
    + split; [lia|]. apply lookup_lt_Some in E. lia.
    + rewrite E, H. reflexivity.
Qed.

Lemma pending_nil tasks :
  pending tasks = [] -> Forall (fun x => task_settled x.2 = true) tasks.
Proof.
  intros H. apply List.Forall_forall. intros x Hx.
  destruct (task_settled x.2) eqn:E; [reflexivity|]. exfalso.
  apply list_elem_of_In in Hx. apply list_elem_of_lookup_1 in Hx as [i Hi].
  assert (Hp : In i (pending tasks)) by (apply pending_spec; exists x; auto).
  rewrite H in Hp. destruct Hp.
Qed.

Lemma run_frame_tasks_settles env p mw fmt q fuel k files tasks rej :
  (tasks_measure tasks <= fuel)%nat ->
  Forall (fun x => task_settled x.2 = true)
    (run_frame_tasks env p mw fmt q fuel k files tasks rej).1.2.
Proof.
  revert k files tasks rej.
  induction fuel as [|fuel IH]; intros k files tasks rej Hm.
  - cbn. apply List.Forall_forall. intros x Hx.
    destruct (task_settled x.2) eqn:E; [reflexivity|].
    pose proof (tasks_measure_unsettled tasks x Hx E). lia.
  - cbn [run_frame_tasks].
    destruct (pending tasks) as [|j js] eqn:Hp; [apply pending_nil; exact Hp|].
    match goal with |- context [nth ?a (j :: js) O] => set (i := nth a (j :: js) O) end.
    assert (Hi : In i (j :: js)).
    { apply nth_In. apply Nat.mod_upper_bound. cbn. lia. }
    rewrite <- Hp in Hi. apply pending_spec in Hi as [[ts t] [Ei Hs]].
    rewrite Ei.
    pose proof (frame_task_step_progress env (env_clock env k) p mw fmt q files ts t Hs) as Hpr.
    destruct (frame_task_step env (env_clock env k) p mw fmt q files ts t)
      as [[files' evs] t'] eqn:Es.
    cbn in Hpr.
    pose proof (tasks_measure_insert tasks i (ts, t) (ts, t') Ei) as Hins. cbn in Hins.
    match goal with
    | |- context [run_frame_tasks env p mw fmt q fuel (S k) files' ?tl ?r] =>
        specialize (IH (S k) files' tl r);
        destruct (run_frame_tasks env p mw fmt q fuel (S k) files' tl r)
          as [[evs' tasks'] rej'']
    end.
    cbn in *. apply IH. lia.
Qed.

Lemma run_frame_tasks_inv (Inv : list (Q * frame_task) -> list event -> Prop)
    env p mw fmt q :
  (forall k files tasks i ts t evs0,
     Inv tasks evs0 -> tasks !! i = Some (ts, t) -> task_settled t = false ->
     Inv (<[i := (ts, (frame_task_step env (env_clock env k) p mw fmt q files ts t).2)]> tasks)
         (evs0 ++ (frame_task_step env (env_clock env k) p mw fmt q files ts t).1.2)) ->
  forall fuel k files tasks rej evs0, Inv tasks evs0 ->
    Inv (run_frame_tasks env p mw fmt q fuel k files tasks rej).1.2
        (evs0 ++ (run_frame_tasks env p mw fmt q fuel k files tasks rej).1.1).
Proof.
  intros Hstep fuel. induction fuel as [|fuel IH]; intros k files tasks rej evs0 H0.
  - cbn. rewrite app_nil_r. exact H0.
  - cbn [run_frame_tasks].
    destruct (pending tasks) as [|j js] eqn:Hp; [cbn; rewrite app_nil_r; exact H0|].
    match goal with |- context [nth ?a (j :: js) O] => set (i := nth a (j :: js) O) end.
    assert (Hi : In i (j :: js)).
    { apply nth_In. apply Nat.mod_upper_bound. cbn. lia. }
    rewrite <- Hp in Hi. apply pending_spec in Hi as [[ts t] [Ei Hs]].
    rewrite Ei.
    pose proof (Hstep k files tasks i ts t evs0 H0 Ei Hs) as H1.
    destruct (frame_task_step env (env_clock env k) p mw fmt q files ts t)
      as [[files' evs] t'] eqn:Es.
    cbn in H1.
    match goal with
    | |- context [run_frame_tasks env p mw fmt q fuel (S k) files' ?tl ?r] =>
        specialize (IH (S k) files' tl r (evs0 ++ evs) H1);
        destruct (run_frame_tasks env p mw fmt q fuel (S k) files' tl r)
          as [[evs' tasks'] rej'']
    end.
    cbn in *. rewrite app_assoc. exact IH.
Qed.

Lemma mkdir_pending_insert p tasks i ts t t' :
  tasks !! i = Some (ts, t) ->
  match t' with FTMkdir => False | _ => True end ->
  Permutation (mkdir_pending p tasks)
    (match t with FTMkdir => [(p, ts)] | _ => [] end
     ++ mkdir_pending p (<[i := (ts, t')]> tasks)).
Proof.
  unfold mkdir_pending. revert i.
  induction tasks as [|[ts0 t0] tasks IH]; intros [|i] Hi Ht'; cbn in *; try discriminate.
  - injection Hi as -> ->. destruct t'; try contradiction; destruct t; reflexivity.
  - specialize (IH i Hi Ht').
    destruct t0; cbn; rewrite IH; try reflexivity;
      destruct t; cbn; try reflexivity; apply perm_swap.
Qed.

Lemma map_fst_insert {A B} (l : list (A * B)) i a b b' :
  l !! i = Some (a, b) -> map fst (<[i := (a, b')]> l) = map fst l.
Proof.
  revert i. induction l as [|[a0 b0] l IH]; intros [|i] H; cbn in *; try discriminate.
  - injection H as <- <-. reflexivity.
  - f_equal. apply IH. exact H.
Qed.

Lemma collect_timestamps (tasks : list (Q * frame_task)) frames :
  Forall (fun x => forall fd, task_outcome x.2 = Some (inl fd) -> fr_timestamp (fd_ref fd) = x.1)
    tasks ->
  collect (map (fun x => task_result x.2) tasks) = inl frames ->
  map (fun f => fr_timestamp (fd_ref f)) frames = map fst tasks.
Proof.
  revert frames. induction tasks as [|[ts t] tasks IH]; intros frames Hok H; cbn in H.
  - injection H as <-. reflexivity.
  - inversion Hok as [|? ? Hx Hrest]; subst.
    destruct (task_result t) as [fd|e] eqn:Er; [|discriminate].
    destruct (collect _) as [l|e] eqn:Ec; [|discriminate].
    injection H as <-. cbn. f_equal.
    + apply Hx. destruct t; cbn in *; try discriminate. rewrite Er. reflexivity.
    + apply IH; [exact Hrest | reflexivity].
Qed.

Lemma decode_requests_app t1 t2 :
  decode_requests (t1 ++ t2) = decode_requests t1 ++ decode_requests t2.
Proof. unfold decode_requests. apply flat_map_app. Qed.

Lemma decode_requests_mkdirs {A} (d : string) (l : list A) :
  decode_requests (map (fun _ => EvMkdir d) l) = [].
Proof. induction l as [|x l IH]; [reflexivity|]. exact IH. Qed.

(** The facts about a whole batch the tool relies on. *)
Lemma promise_all_frames_facts env p tss mw fmt q :
  let r := run_frame_tasks env p mw fmt q (5 * length tss) O ∅
             (map (fun ts => (ts, FTMkdir)) tss) None in
  Permutation (decode_requests r.1.1) (map (fun ts => (p, ts)) tss)
  /\ map fst r.1.2 = tss
  /\ Forall (fun x => forall fd, task_outcome x.2 = Some (inl fd)
                                 -> fr_timestamp (fd_ref fd) = x.1) r.1.2.
Proof.
  cbv zeta.
  set (started := map (fun ts => (ts, FTMkdir)) tss).
  assert (Hm : (tasks_measure started <= 5 * length tss)%nat).
  { unfold started, tasks_measure. induction tss as [|ts tss IH]; cbn in *; lia. }
  pose proof (run_frame_tasks_settles env p mw fmt q _ O ∅ started None Hm) as Hset.
  pose (Inv := fun tasks evs =>
                  Permutation (decode_requests evs ++ mkdir_pending p tasks)
                    (mkdir_pending p started)
                  /\ map fst tasks = tss
                  /\ Forall (fun x => forall fd, task_outcome x.2 = Some (inl fd)
                                                 -> fr_timestamp (fd_ref fd) = x.1) tasks).
  assert (Hstep : forall k files tasks i ts t evs0,
     Inv tasks evs0 -> tasks !! i = Some (ts, t) -> task_settled t = false ->
     Inv (<[i := (ts, (frame_task_step env (env_clock env k) p mw fmt q files ts t).2)]> tasks)
         (evs0 ++ (frame_task_step env (env_clock env k) p mw fmt q files ts t).1.2)).
  { intros k files tasks i ts t evs0 [H1 [H2 H3]] Ei Hs.
    destruct (frame_task_step_decodes env (env_clock env k) p mw fmt q files ts t) as [Hd Hnm].
    split; [|split].
    + rewrite decode_requests_app, Hd, <- app_assoc.
      rewrite <- (mkdir_pending_insert p tasks i ts t _ Ei Hnm). exact H1.
    + rewrite (map_fst_insert tasks i ts t _ Ei). exact H2.
    + apply Forall_insert; [exact H3|]. cbn. intros fd Hfd.
      apply (frame_task_step_outcome env (env_clock env k) p mw fmt q files ts t fd); [|exact Hfd].
      apply List.Forall_forall with (x := (ts, t)) in H3; [exact H3|].
      apply list_elem_of_In. apply list_elem_of_lookup_2 with i. exact Ei. }
  assert (H0 : Inv started []).
  { split; [|split].
    - cbn. reflexivity.
    - unfold started. rewrite map_map. apply map_id.
    - unfold started. apply List.Forall_forall. intros x Hx.
      apply in_map_iff in Hx as [ts [<- _]]. cbn. discriminate. }
  destruct (run_frame_tasks_inv Inv env p mw fmt q Hstep (5 * length tss) O ∅ started None [] H0)
    as [Hperm [Hfst Hok]].
  split; [|split; [exact Hfst | exact Hok]].
  rewrite app_nil_l in Hperm.
    assert (Hnil : mkdir_pending p (run_frame_tasks env p mw fmt q (5 * length tss) O ∅ started None).1.2 = []).
    { revert Hset. generalize (run_frame_tasks env p mw fmt q (5 * length tss) O ∅ started None).1.2.
      intros l Hl. unfold mkdir_pending. induction Hl as [|[ts t] l Ht Hl IH]; [reflexivity|].
      cbn in *. destruct t; try discriminate. exact IH. }
    rewrite Hnil, app_nil_r in Hperm. rewrite Hperm.
    unfold started, mkdir_pending. clear. induction tss as [|ts tss IH]; [reflexivity|]. cbn. apply perm_skip. exact IH.
Qed.

(** C4: [get_frames_batch] asks the decoder for exactly the first five
    requested timestamps (fewer if fewer are given), each once, and never
    for a later one; the calls run concurrently, so the order of the
    requests is the scheduler's: as a multiset they are the first five
    timestamps.  When it succeeds its response reports the number of
    timestamps requested and the number of frames extracted ([min 5 n]),
    and lists the frames in the requested order. *)
Theorem get_frames_batch_cap_and_order :
  forall (env : Env) (s : ProcState) (videoPath : string) (timestamps : list Q)
         (maxWidth : option Q) (fmt : option img_format),
    env_access env videoPath = true ->
    let call := callTool (TGetFramesBatch videoPath timestamps maxWidth fmt) in
    Permutation (decode_requests (run_trace call env s))
      (map (fun ts => (videoPath, ts)) (firstn 5 timestamps))
    /\ exists resp, run_result call env s = inl resp
       /\ (tr_isError resp = true
           \/ exists j imgs fs,
                tr_content resp = CText j :: imgs
                /\ jget "framesExtracted" j = Some (jnat (Nat.min 5 (length timestamps)))
                /\ jget "totalTimestampsRequested" j = Some (jnat (length timestamps))
                /\ jget "limited" j = Some (JBool (Nat.ltb 5 (length timestamps)))
                /\ jget "frames" j = Some (JArr fs)
                /\ map (jget "timestamp") fs
                   = map (fun ts => Some (JNum ts)) (firstn 5 timestamps)).
Proof.
  intros env s p tss mw fmt Hacc call. subst call.
  unfold run_trace, run_result.
  unfold callTool, catch_to_response, handle_get_frames_batch, checkFile.
  cbv zeta.
  unfold mbind, M_bind, ask, emit, mret, M_ret. cbn [fst snd].
  rewrite Hacc. cbn [negb app].
  unfold promise_all_frames.
  pose proof (promise_all_frames_facts env p (firstn 5 tss) (default mw 1920%Q)
                (default fmt Jpeg) 80%Q) as Hf.
  cbv zeta in Hf.
  destruct (run_frame_tasks _ _ _ _ _ _ _ _ _ _) as [[evs settled] rej].
  cbn [fst snd] in Hf. destruct Hf as [Hperm [Hfst Hok]].
  destruct rej as [e|]; [|destruct (collect _) as [frames|e] eqn:Ec]; cbn [fst snd];
    (split; [ change (decode_requests (EvAccess p :: ?l)) with (decode_requests l);
              rewrite ?app_nil_r, decode_requests_app, decode_requests_mkdirs; exact Hperm |]).
  - eexists; split; [reflexivity|]. left. reflexivity.
  - eexists; split; [reflexivity|]. right.
    apply collect_timestamps in Ec; [|exact Hok]. rewrite Hfst in Ec.
    assert (Hlen : length frames = Nat.min 5 (length tss)).
    { rewrite <- length_firstn, <- Ec. rewrite length_map. reflexivity. }
    do 3 eexists. split; [reflexivity|].
    split; [cbn; rewrite Hlen; reflexivity|].
    split; [reflexivity|]. split; [reflexivity|]. split; [reflexivity|].
    rewrite <- Ec, !map_map. apply map_ext. intros f. reflexivity.
  - eexists; split; [reflexivity|]. left. reflexivity.
Qed.

Lemma get_frames_batch_cap_and_order_witness :
  env_access (sample_env 100 3840 2160 true) "/videos/clip.mp4" = true
  /\ Permutation
       (decode_requests
          (run_trace (callTool (TGetFramesBatch "/videos/clip.mp4" [5; 1; 80; 20; 40; 60; 99]%Q None None))
             (sample_env 100 3840 2160 true) empty_state))
       [("/videos/clip.mp4", 5%Q); ("/videos/clip.mp4", 1%Q); ("/videos/clip.mp4", 80%Q);
        ("/videos/clip.mp4", 20%Q); ("/videos/clip.mp4", 40%Q)].
Proof.
  split; [reflexivity|].
  exact (proj1 (get_frames_batch_cap_and_order (sample_env 100 3840 2160 true) empty_state
                  "/videos/clip.mp4" [5; 1; 80; 20; 40; 60; 99]%Q None None eq_refl)).
Defined.

(** ** Single-frame fetch: no range check *)

(** C5 (the stated property fails): a 10-second video whose decoder returns a frame
    for the seek to -1 s (as ffmpeg does for a negative input seek): both
    [extractSingleFrame] and the [get_frame] tool return a frame for the
    timestamp -1, which lies outside [0, duration). *)
Lemma get_frame_outside_duration_returns_frame :
  let env := sample_env_with 10 1920 1080 true (lenient_decoder 1920 1080) in
  run_result (getMetadata "/videos/clip.mp4") env empty_state
    = inl (sample_metadata 10 1920 1080 true)
  /\ ~ (0 <= -1 < 10)%Q
  /\ (exists fd, run_result (extractSingleFrame "/videos/clip.mp4" (-1) 1920 Jpeg 80) env empty_state
                 = inl fd)
  /\ (exists resp data, run_result (callTool (TGetFrame "/videos/clip.mp4" (-1) None None None))
                          env empty_state = inl resp
                     /\ tr_isError resp = false
                     /\ In (CImage data "image/jpeg") (tr_content resp)).
Proof.
  cbv zeta. split; [vm_compute; reflexivity|]. split.
  { intros [H _]. vm_compute in H. apply H. reflexivity. }
  split.
  - eexists. vm_compute. reflexivity.
  - do 2 eexists. split; [vm_compute; reflexivity|]. split; [reflexivity|].
    cbn. right. left. reflexivity.
Qed.

Lemma get_frame_run env s p ts mw0 fmt0 q0 :
  let m := extractSingleFrame p ts (default mw0 1920%Q) (default fmt0 Jpeg) (default q0 80%Q) in
  let call := callTool (TGetFrame p ts mw0 fmt0 q0) in
  run_trace call env s = EvAccess p :: (if env_access env p then run_trace m env s else [])
  /\ (env_access env p = false -> run_result call env s = inl (not_found p))
  /\ (env_access env p = true -> forall fd, run_result m env s = inl fd ->
        exists resp, run_result call env s = inl resp /\ tr_isError resp = false
          /\ In (CImage (fd_base64 fd) (fd_mimeType fd)) (tr_content resp))
  /\ (env_access env p = true -> forall e, run_result m env s = inr e ->
        exists resp j, run_result call env s = inl resp /\ tr_isError resp = true
          /\ tr_content resp = [CText j] /\ jget "error" j = Some (JStr e)).
Proof.
  intros m call. subst call.
  unfold callTool, catch_to_response, handle_get_frame, checkFile. cbv zeta. fold m.
  unfold run_trace, run_result, mbind, M_bind, mret, M_ret, ask, emit. cbn [fst snd].
  destruct (env_access env p); cbn [negb].
  - destruct (m env s) as [[s1 t1] [fd|e]]; cbn [fst snd]; rewrite ?app_nil_r.
    + split; [reflexivity|]. split; [discriminate|]. split.
      * intros _ fd' H. injection H as <-. eexists. split; [reflexivity|].
        split; [reflexivity|]. cbn. right. left. reflexivity.
      * intros _ e H. discriminate.
    + split; [reflexivity|]. split; [discriminate|]. split.
      * intros _ fd' H. discriminate.
      * intros _ e' H. injection H as <-. do 2 eexists. split; [reflexivity|].
        split; [reflexivity|]. split; reflexivity.
  - split; [reflexivity|]. split; [reflexivity|]. split; discriminate.
Qed.

Lemma get_frame_observe env env' s p ts mw0 fmt0 q0 :
  let m := extractSingleFrame p ts (default mw0 1920%Q) (default fmt0 Jpeg) (default q0 80%Q) in
  let call := callTool (TGetFrame p ts mw0 fmt0 q0) in
  env_access env' p = env_access env p ->
  observe m env' s = observe m env s ->
  observe call env' s = observe call env s.
Proof.
  intros m call Hacc Hm. subst call.
  unfold callTool, catch_to_response, handle_get_frame, checkFile. cbv zeta. fold m.
  unfold observe, run_trace, run_result in *.
  unfold mbind, M_bind, mret, M_ret, ask, emit. cbn [fst snd].
  rewrite Hacc. destruct (env_access env p); cbn [negb]; [|reflexivity].
  destruct (m env' s) as [[s1 t1] r1], (m env s) as [[s2 t2] r2].
  cbn in Hm. injection Hm as <- <-. destruct r1; reflexivity.
Qed.

(** C5 (as the code has it): neither [extractSingleFrame] nor the
    [get_frame] tool makes a range check of its own.  With the tool's
    defaults for the options: neither probes the video, and their calls and
    results are the same whatever the probe reports, duration included; a
    decoder error is passed through as the failure; [extractSingleFrame]
    fails only with the decoder's error, with the read error of a frame file
    the decoder did not write, or with an error of the image resizer or
    encoder.  For a file that passes the access check, [get_frame] makes the
    calls of [extractSingleFrame] after it, returns its frame as an image
    when it succeeds, and turns its failure into an error response carrying
    the same message. *)
Theorem extractSingleFrame_fails_only_through_collaborators :
  forall (env : Env) (s : ProcState) (videoPath : string) (timestamp : Q)
         (maxWidth quality : option Q) (fmt : option img_format),
    let m := extractSingleFrame videoPath timestamp (default maxWidth 1920%Q)
               (default fmt Jpeg) (default quality 80%Q) in
    let call := callTool (TGetFrame videoPath timestamp maxWidth fmt quality) in
    (forall probe, observe m (with_probe env probe) s = observe m env s
                   /\ observe call (with_probe env probe) s = observe call env s)
    /\ Forall (fun e => match e with EvProbe _ => False | _ => True end) (run_trace call env s)
    /\ (forall e, env_ffmpeg_frame env videoPath timestamp = inr e -> run_result m env s = inr e)
    /\ (forall e, run_result m env s = inr e ->
          env_ffmpeg_frame env videoPath timestamp = inr e
          \/ (env_ffmpeg_frame env videoPath timestamp = inl None
              /\ exists framePath, e = enoent framePath)
          \/ (exists image, env_sharp_resize env image (default maxWidth 1920%Q) = inr e)
          \/ (exists image, env_sharp_encode env image (default fmt Jpeg) (default quality 80%Q)
                            = inr e))
    /\ (env_access env videoPath = true ->
          run_trace call env s = EvAccess videoPath :: run_trace m env s
          /\ (forall fd, run_result m env s = inl fd ->
                exists resp, run_result call env s = inl resp /\ tr_isError resp = false
                  /\ In (CImage (fd_base64 fd) (fd_mimeType fd)) (tr_content resp))
          /\ (forall e, run_result m env s = inr e ->
                exists resp j, run_result call env s = inl resp /\ tr_isError resp = true
                  /\ tr_content resp = [CText j] /\ jget "error" j = Some (JStr e))).
Proof.
  intros env s p ts mw0 q0 fmt0 m call.
  set (mw := default mw0 1920%Q) in *. set (f := default fmt0 Jpeg) in *.
  set (q := default q0 80%Q) in *.
  assert (Hm : forall probe, observe m (with_probe env probe) s = observe m env s).
  { intros probe. unfold m.
    unfold observe, run_trace, run_result, extractSingleFrame, ensureTempDir, try_finally,
      resize_if_needed, encode, lift_result, tempDir.
    unfold mbind, M_bind, mret, M_ret, ask, emit, throw. cbn.
    destruct (env_ffmpeg_frame env p ts) as [[img|]|e0]; cbn; [|reflexivity|reflexivity].
    destruct (img_width img) as [w|]; cbn;
      [destruct (negb (w =? 0) && Qlt_bool mw (inject_Z w)); cbn;
        [destruct (env_sharp_resize env img mw); cbn; [|reflexivity]|]|];
      destruct (env_sharp_encode env _ f q); reflexivity. }
  assert (Hmf :
    Forall (fun e => match e with EvProbe _ => False | _ => True end) (run_trace m env s)
    /\ (forall e, env_ffmpeg_frame env p ts = inr e -> run_result m env s = inr e)
    /\ (forall e, run_result m env s = inr e ->
          env_ffmpeg_frame env p ts = inr e
          \/ (env_ffmpeg_frame env p ts = inl None /\ exists framePath, e = enoent framePath)
          \/ (exists image, env_sharp_resize env image mw = inr e)
          \/ (exists image, env_sharp_encode env image f q = inr e))).
  { unfold m, run_trace, run_result, extractSingleFrame, ensureTempDir, try_finally,
      resize_if_needed, encode, lift_result.
    unfold mbind, M_bind, mret, M_ret, ask, emit, throw. cbn.
    destruct (env_ffmpeg_frame env p ts) as [[img|]|e0]; cbn.
    - split; [|split; [discriminate|]].
      + destruct (img_width img) as [w|]; cbn;
          [destruct (negb (w =? 0) && Qlt_bool mw (inject_Z w)); cbn;
            [destruct (env_sharp_resize env img mw); cbn; [|repeat constructor]|]|];
          destruct (env_sharp_encode env _ f q); cbn; repeat constructor.
      + intros e He. right; right.
        destruct (img_width img) as [w|]; cbn in He;
          [destruct (negb (w =? 0) && Qlt_bool mw (inject_Z w)); cbn in He;
            [destruct (env_sharp_resize env img mw) as [img'|e1] eqn:Er; cbn in He;
               [|left; exists img; unfold id in He; congruence]|]|];
          right; match type of He with
          | context [env_sharp_encode env ?im f q] =>
              exists im; destruct (env_sharp_encode env im f q); cbn in He;
              unfold id in He; congruence
          end.
    - split; [repeat constructor|]. split; [discriminate|].
      intros e He. right; left. split; [reflexivity|].
      injection He as <-. eexists. reflexivity.
    - split; [repeat constructor|]. split.
      + intros e H. injection H as ->. reflexivity.
      + intros e H. left. unfold id in H. injection H as ->. reflexivity. }
  destruct Hmf as [Hnp Hmf].
  destruct (get_frame_run env s p ts mw0 fmt0 q0) as [Ht [_ [Hok Herr]]].
  split; [|split; [|split; [exact (proj1 Hmf) | split; [exact (proj2 Hmf)|]]]].
  - intros probe. split; [exact (Hm probe)|].
    apply get_frame_observe; [reflexivity | exact (Hm probe)].
  - unfold call. rewrite Ht. constructor; [exact I|].
    destruct (env_access env p); [exact Hnp | constructor].
  - intros Hacc. rewrite Hacc in Ht. split; [exact Ht|].
    split; [exact (Hok Hacc) | exact (Herr Hacc)].
Qed.

(** ** Audio extraction on a silent video *)

(** A successful metadata lookup probes, then stats, and leaves the state
    alone. *)
Lemma getMetadata_success (env : Env) (s : ProcState) (p : string) (md : VideoMetadata) :
  run_result (getMetadata p) env s = inl md ->
  getMetadata p env s = (s, [EvProbe p; EvStat p], inl md).
Proof.
  unfold run_result, getMetadata, lift_result.
  unfold mbind, M_bind, mret, M_ret, ask, emit, throw. cbn.
  destruct (env_ffprobe env p) as [pd|e]; cbn; [|discriminate].
  destruct (List.find _ (streams pd)); cbn; [|discriminate].
  intros H. injection H as <-. reflexivity.
Qed.

(** C6: when the probe reports no audio track, [extract_audio] answers with
    the no-audio-track failure right after the access check and the metadata
    lookup: the audio extractor is never run and no temporary directory or
    file is touched (the whole call trace is the access check, the probe and
    the stat), and the processor state is unchanged. *)
Theorem extract_audio_no_track_fails_early :
  forall (env : Env) (s : ProcState) (videoPath : string) (md : VideoMetadata)
         (fmt : option audio_format) (bitrate : option string) (startTime endTime : option Q),
    env_access env videoPath = true ->
    run_result (getMetadata videoPath) env s = inl md ->
    hasAudio md = false ->
    callTool (TExtractAudio videoPath fmt bitrate startTime endTime) env s
    = (s, [EvAccess videoPath; EvProbe videoPath; EvStat videoPath],
       inl (text_response (JObj [("success", JBool false);
                                 ("error", JStr "Video does not have an audio track")]))).
Proof.
  intros env s p md fmt br st et Hacc Hmd Hno.
  apply getMetadata_success in Hmd.
  unfold callTool, catch_to_response, handle_extract_audio, checkFile.
  unfold mbind, M_bind, mret, M_ret, ask, emit. cbn.
  rewrite Hacc. cbn. rewrite Hmd. cbn. rewrite Hno. reflexivity.
Qed.

Lemma extract_audio_no_track_fails_early_witness :
  env_access (sample_env 100 1920 1080 false) "/videos/silent.mp4" = true
  /\ run_result (getMetadata "/videos/silent.mp4") (sample_env 100 1920 1080 false) empty_state
     = inl (sample_metadata 100 1920 1080 false)
  /\ hasAudio (sample_metadata 100 1920 1080 false) = false
  /\ callTool (TExtractAudio "/videos/silent.mp4" None None None None)
       (sample_env 100 1920 1080 false) empty_state
     = (empty_state,
        [EvAccess "/videos/silent.mp4"; EvProbe "/videos/silent.mp4"; EvStat "/videos/silent.mp4"],
        inl (text_response (JObj [("success", JBool false);
                                  ("error", JStr "Video does not have an audio track")]))).
Proof.
  split; [reflexivity|]. split; [vm_compute; reflexivity|]. split; [reflexivity|].
  apply (extract_audio_no_track_fails_early (sample_env 100 1920 1080 false) empty_state
           "/videos/silent.mp4" (sample_metadata 100 1920 1080 false) None None None None);
    [reflexivity | vm_compute; reflexivity | reflexivity].
Defined.

(** ** Frame token estimates *)

Lemma estimateFrameTokens_closed (w h : Z) :
  w <> 0 ->
  estimateFrameTokens w h
  = JFin (inject_Z (Qceiling (inject_Z (frame_pixels w h) * frame_token_rate))).
Proof.
  intros Hw. unfold estimateFrameTokens, scaled_height.
  apply Z.eqb_neq in Hw. rewrite Hw.
  cbn [js_round js_mul js_lift2 js_ceil].
  do 2 f_equal. apply Qceiling_comp.
  unfold frame_pixels, frame_token_rate. cbv zeta. rewrite !inject_Z_mult. ring.
Qed.

Lemma Qround_js_inject (z : Z) : Qround_js (inject_Z z) = z.
Proof.
  unfold Qround_js.
  rewrite (Qfloor_comp _ ((2 * z + 1) # 2)).
  - cbn. symmetry. apply (Z.div_unique_pos _ _ _ 1); lia.
  - unfold Qeq, inject_Z, Qplus. cbn. lia.
Qed.

Lemma frame_pixels_small (w h : Z) :
  0 < w <= 1920 -> frame_pixels w h = w * h.
Proof.
  intros Hw. unfold frame_pixels.
  rewrite Z.min_l by lia. f_equal.
  rewrite <- (Qround_js_inject h) at 2. unfold Qround_js.
  apply Qfloor_comp. rewrite inject_Z_mult. field.
  unfold Qeq. cbn. lia.
Qed.

Lemma frame_token_rate_pos : (0 < frame_token_rate)%Q.
Proof. reflexivity. Qed.

(** C7 (the stated property fails): a 3840x1000 frame has more pixels than a
    1920x1080 one, yet its estimate is less than half as large (the wider
    frame is scaled down to 1920x500 before it is counted). *)
Lemma more_pixels_fewer_tokens :
  1920 * 1080 <= 3840 * 1000
  /\ estimateFrameTokens 3840 1000 = JFin 31172
  /\ estimateFrameTokens 1920 1080 = JFin 67332
  /\ js_ge (estimateFrameTokens 3840 1000) (estimateFrameTokens 1920 1080) = false.
Proof. split; [lia|]. repeat split; vm_compute; reflexivity. Qed.

(** C7 (as the code has it): for positive widths the estimate is monotone
    in the pixel count of the frame as sized for the estimate (width capped
    at 1920, height scaled in proportion and rounded); for widths up to 1920
    that count is [width * height], so there the estimate is monotone in the
    pixel count. *)
Theorem estimateFrameTokens_monotone_in_frame_pixels :
  forall wA hA wB hB : Z,
    0 < wA -> 0 < wB ->
    (frame_pixels wB hB <= frame_pixels wA hA ->
     js_ge (estimateFrameTokens wA hA) (estimateFrameTokens wB hB) = true)
    /\ (wA <= 1920 -> wB <= 1920 -> wB * hB <= wA * hA ->
        js_ge (estimateFrameTokens wA hA) (estimateFrameTokens wB hB) = true).
Proof.
  intros wA hA wB hB HA HB.
  assert (Hmono : frame_pixels wB hB <= frame_pixels wA hA ->
     js_ge (estimateFrameTokens wA hA) (estimateFrameTokens wB hB) = true).
  { intros Hle.
    rewrite !estimateFrameTokens_closed by lia. cbn.
    apply Qle_bool_iff. rewrite <- Zle_Qle.
    apply Qceiling_resp_le. apply Qmult_le_compat_r.
    - rewrite <- Zle_Qle. exact Hle.
    - apply Qlt_le_weak, frame_token_rate_pos. }
  split; [exact Hmono|].
  intros HA' HB' Hle. apply Hmono.
  rewrite !frame_pixels_small by lia. exact Hle.
Qed.

Lemma estimateFrameTokens_monotone_in_frame_pixels_witness :
  0 < 3840 /\ 0 < 1280
  /\ js_ge (estimateFrameTokens 3840 2160) (estimateFrameTokens 1280 720) = true.
Proof.
  split; [lia|]. split; [lia|].
  refine (proj1 (estimateFrameTokens_monotone_in_frame_pixels 3840 2160 1280 720 _ _) _);
    [lia | lia | vm_compute; discriminate].
Defined.

(** C8: a frame width of 0, which [getMetadata] reports when the probe gives
    no width for the video stream, makes the frame estimate NaN (the scaled
    height is [0 / 0]), not a non-negative integer; on such a video every
    planned frame reference of the overview carries a NaN estimate. *)
Theorem estimateFrameTokens_zero_width_NaN :
  (forall h : Z, estimateFrameTokens 0 h = JNaN)
  /\ (let env := with_probe (sample_env 60 1920 1080 false)
                   (fun _ => inl (widthless_probe 60 1080)) in
      exists ov,
        run_result (getVideoOverview "/videos/clip.mp4" 10) env empty_state = inl ov
        /\ length (ov_availableFrames ov) = 10%nat
        /\ Forall (fun fr => fr_estimatedTokens fr = JNaN) (ov_availableFrames ov)).
Proof.
  split; [intros h; reflexivity|].
  cbv zeta. eexists. split; [vm_compute; reflexivity|].
  split; [reflexivity|]. repeat constructor.
Qed.

(** ** Duration hint *)

(** C9 (the stated property fails): a 45-second video is in the medium branch
    ([30 <= d < 300]); its duration hint recommends 15 frames every 3
    seconds, not 10 frames every 4.5 seconds. *)
Lemma duration_45_hint_medium_branch :
  option_map ah_parameters
    (hd_error (analysisHints (summarize (sample_metadata 45 1920 1080 true))))
  = Some (Some [("maxFrames", JNum 15); ("interval", JNum 3)])
  /\ option_map ah_parameters
       (hd_error (analysisHints (summarize (sample_metadata 45 1920 1080 true))))
     <> Some (Some [("maxFrames", JNum 10); ("interval", JNum (9 # 2))]).
Proof. split; vm_compute; [reflexivity | discriminate]. Qed.

(** C9 (as the code has it): for any video of duration 45 s the first
    analysis hint of the summary is the duration hint of the medium branch,
    with 15 frames and the integer interval [floor(45 / 15) = 3]. *)
Theorem duration_45_hint :
  forall md : VideoMetadata,
    duration md = 45%Q ->
    option_map (fun h => (ah_aspect h, ah_parameters h))
      (hd_error (analysisHints (summarize md)))
    = Some (AspDuration, Some [("maxFrames", JNum 15); ("interval", JNum 3)]).
Proof.
  intros md Hd. unfold summarize, generateAnalysisHints. cbn [analysisHints].
  rewrite Hd.
  destruct (1920 <? width md)%Z, (hasAudio md); reflexivity.
Qed.

Lemma duration_45_hint_witness :
  duration (sample_metadata 45 640 360 false) = 45%Q
  /\ option_map (fun h => (ah_aspect h, ah_parameters h))
       (hd_error (analysisHints (summarize (sample_metadata 45 640 360 false))))
     = Some (AspDuration, Some [("maxFrames", JNum 15); ("interval", JNum 3)]).
Proof.
  split; [reflexivity|].
  apply duration_45_hint. reflexivity.
Defined.

(** ** The frame cache is write-only *)

Section Blind.

Lemma blind_ret {A} (a : A) : state_blind (mret a).
Proof. intros env s1 s2. reflexivity. Qed.

Lemma blind_bind {A B} (m : M A) (k : A -> M B) :
  state_blind m -> (forall a, state_blind (k a)) -> state_blind (mbind k m).
Proof.
  intros Hm Hk env s1 s2. specialize (Hm env s1 s2).
  unfold observe, run_trace, run_result in *. unfold mbind, M_bind.
  destruct (m env s1) as [[u1 t1] r1], (m env s2) as [[u2 t2] r2].
  cbn in Hm. injection Hm as <- <-.
  destruct r1 as [a|e]; [|reflexivity].
  specialize (Hk a env u1 u2). unfold observe, run_trace, run_result in Hk.
  destruct (k a env u1) as [[v1 w1] q1], (k a env u2) as [[v2 w2] q2].
  cbn in *. injection Hk as <- <-. reflexivity.
Qed.

Lemma blind_ask : state_blind ask.
Proof. intros env s1 s2. reflexivity. Qed.

Lemma blind_emit ev : state_blind (emit ev).
Proof. intros env s1 s2. reflexivity. Qed.

Lemma blind_throw {A} e : state_blind (@throw A e).
Proof. intros env s1 s2. reflexivity. Qed.

Lemma blind_lift_result {A} w (r : A + string) : state_blind (lift_result w r).
Proof. destruct r; [apply blind_ret | apply blind_throw]. Qed.

Lemma blind_cache_set k v : state_blind (cache_set k v).
Proof. intros env s1 s2. reflexivity. Qed.

Lemma blind_try_finally {A} (m : M A) fin :
  state_blind m -> state_blind fin -> state_blind (try_finally m fin).
Proof.
  intros Hm Hf env s1 s2. specialize (Hm env s1 s2).
  unfold observe, run_trace, run_result, try_finally in *.
  destruct (m env s1) as [[u1 t1] r1], (m env s2) as [[u2 t2] r2].
  cbn in Hm. injection Hm as <- <-.
  specialize (Hf env u1 u2). unfold observe, run_trace, run_result in Hf.
  destruct (fin env u1) as [[v1 w1] q1], (fin env u2) as [[v2 w2] q2].
  cbn in *. injection Hf as <- <-. reflexivity.
Qed.

Lemma blind_try_catch {A} (m : M A) : state_blind m -> state_blind (try_catch m).
Proof.
  intros Hm env s1 s2. specialize (Hm env s1 s2).
  unfold observe, run_trace, run_result, try_catch in *.
  destruct (m env s1) as [[u1 t1] r1], (m env s2) as [[u2 t2] r2].
  cbn in Hm. injection Hm as <- <-. destruct r1; reflexivity.
Qed.

Lemma blind_promise_all_frames p tss mw fmt q : state_blind (promise_all_frames p tss mw fmt q).
Proof.
  intros env s1 s2. unfold observe, run_trace, run_result, promise_all_frames.
  destruct (run_frame_tasks _ _ _ _ _ _ _ _ _ _) as [[evs settled] rej]. reflexivity.
Qed.

Lemma blind_for_each_seq {A} (f : nat -> M A) (is : list nat) :
  (forall i, state_blind (f i)) -> state_blind (for_each_seq f is).
Proof.
  intros Hf. induction is as [|i is IH]; cbn.
  - apply blind_ret.
  - apply blind_bind; [apply Hf|intros x].
    apply blind_bind; [exact IH|intros xs]. apply blind_ret.
Qed.

Lemma blind_catch_to_response m : state_blind m -> state_blind (catch_to_response m).
Proof.
  intros H env s1 s2. specialize (H env s1 s2).
  unfold observe, run_trace, run_result, catch_to_response in *.
  destruct (m env s1) as [[u1 t1] r1], (m env s2) as [[u2 t2] r2].
  cbn in H. injection H as <- <-. destruct r1; reflexivity.
Qed.

End Blind.

Ltac blind_tac :=
  repeat (cbv beta zeta;
    first
    [ apply blind_bind; [| intros ?]
    | apply blind_ret
    | apply blind_ask
    | apply blind_emit
    | apply blind_throw
    | apply blind_lift_result
    | apply blind_cache_set
    | apply blind_try_finally
    | apply blind_try_catch
    | apply blind_promise_all_frames
    | apply blind_for_each_seq; intros ?
    | apply blind_catch_to_response
    | progress unfold getMetadata, getMetadataSummary, getVideoOverview,
        ensureTempDir, resize_if_needed, encode, extractSingleFrame,
        extractFrames_one, extractFrames, extractAudio, analyzeVideo, estimateTokens,
        checkFile
    | match goal with
      | |- state_blind (match ?x with _ => _ end) => destruct x
      | |- state_blind (if ?x then _ else _) => destruct x
      end ]).

Lemma callTool_blind (call : ToolCall) : state_blind (callTool call).
Proof.
  destruct call; unfold callTool;
    unfold handle_get_video_overview, handle_get_video_metadata,
      handle_estimate_analysis_cost, handle_get_frame, handle_get_frames_batch,
      handle_extract_audio, handle_analyze_video_full, handle_unknown;
    blind_tac.
Qed.

Lemma session_blind (calls : list ToolCall) : state_blind (session calls).
Proof.
  induction calls as [|c cs IH]; cbn.
  - apply blind_ret.
  - apply blind_bind; [apply callTool_blind|intros r].
    apply blind_bind; [exact IH|intros rs]. apply blind_ret.
Qed.

(** C10: the frame cache is never read.  Every processor method and every
    session of tool calls gives the same collaborator calls and the same
    result (or error) from any two initial processor states, whatever the
    cache holds; only the final state, where the overview writes its frame
    references, can differ. *)
Theorem frame_cache_never_read :
  (forall (calls : list ToolCall) (env : Env) (s1 s2 : ProcState),
      observe (session calls) env s1 = observe (session calls) env s2)
  /\ (forall p, state_blind (getMetadata p))
  /\ (forall p, state_blind (getMetadataSummary p))
  /\ (forall p fc, state_blind (getVideoOverview p fc))
  /\ (forall p ts mw fmt q, state_blind (extractSingleFrame p ts mw fmt q))
  /\ (forall p mf iv mw fmt q, state_blind (extractFrames p mf iv mw fmt q))
  /\ (forall p fmt br st et, state_blind (extractAudio p fmt br st et))
  /\ (forall p ef mf ea fi, state_blind (analyzeVideo p ef mf ea fi))
  /\ (forall p fc, state_blind (estimateTokens p fc)).
Proof.
  split; [intros calls; apply session_blind|].
  repeat split; intros; blind_tac.
Qed.

(* ========================================================================= *)
(** * Further properties of the code *)

Lemma Qfloor_unique (q : Q) (z : Z) :
  (inject_Z z <= q)%Q -> (q < inject_Z (z + 1))%Q -> Qfloor q = z.
Proof.
  intros H1 H2.
  pose proof (Qfloor_le q) as F1. pose proof (Qlt_floor q) as F2.
  assert (A : Qfloor q < z + 1).
  { rewrite Zlt_Qlt. eapply Qle_lt_trans; [exact F1|exact H2]. }
  assert (B : z < Qfloor q + 1).
  { rewrite Zlt_Qlt. eapply Qle_lt_trans; [exact H1|exact F2]. }
  lia.
Qed.

Lemma Qfloor_div_pos (q : Q) (n : Z) :
  0 < n -> Qfloor (q / inject_Z n) = Qfloor q / n.
Proof.
  intros Hn. apply Qfloor_unique.
  - pose proof (Qfloor_le q) as F.
    pose proof (Z.mul_div_le (Qfloor q) n Hn) as D.
    apply Qle_shift_div_l; [change 0%Q with (inject_Z 0); rewrite <- Zlt_Qlt; exact Hn|].
    rewrite <- inject_Z_mult. eapply Qle_trans; [|exact F].
    rewrite <- Zle_Qle. lia.
  - pose proof (Qlt_floor q) as F.
    pose proof (Z.mod_pos_bound (Qfloor q) n Hn) as M.
    pose proof (Z.div_mod (Qfloor q) n ltac:(lia)) as E.
    apply Qlt_shift_div_r; [change 0%Q with (inject_Z 0); rewrite <- Zlt_Qlt; exact Hn|].
    rewrite <- inject_Z_mult. eapply Qlt_le_trans; [exact F|].
    rewrite <- Zle_Qle. nia.
Qed.

Lemma Qfloor_sub_Z (q : Q) (z : Z) : Qfloor (q - inject_Z z) = Qfloor q - z.
Proof.
  pose proof (Qfloor_le q) as F1. pose proof (Qlt_floor q) as F2.
  apply Qfloor_unique.
  - unfold Z.sub. rewrite inject_Z_plus, inject_Z_opp. lra.
  - unfold Z.sub. rewrite !inject_Z_plus, inject_Z_opp in *. lra.
Qed.

Lemma padStart_two_digits (k : Z) :
  0 <= k < 60 -> String.length (padStart 2 (show_Z k)) = 2%nat.
Proof.
  intros Hk.
  assert (Hall : forallb (fun k => Nat.eqb (String.length (padStart 2 (show_Z k))) 2)
                   (map Z.of_nat (seq 0 60)) = true) by (vm_compute; reflexivity).
  rewrite forallb_forall in Hall.
  specialize (Hall k). apply Nat.eqb_eq, Hall.
  apply in_map_iff. exists (Z.to_nat k). split; [lia|]. apply in_seq. lia.
Qed.

(** For a non-negative number of seconds, [formatTimestamp] prints the whole minutes, a colon and the remaining whole seconds; the seconds field lies in 0..59 and is always two characters wide. *)
Theorem formatTimestamp_nonneg :
  forall s : Q, (0 <= s)%Q ->
    formatTimestamp s
    = String.append (show_Z (Qfloor s / 60))
        (String.append ":" (padStart 2 (show_Z (Qfloor s mod 60))))
    /\ 0 <= Qfloor s mod 60 < 60
    /\ String.length (padStart 2 (show_Z (Qfloor s mod 60))) = 2%nat.
Proof.
  intros s Hs.
  assert (Hm : 0 <= Qfloor s mod 60 < 60) by (apply Z.mod_pos_bound; lia).
  split; [|split; [exact Hm | apply padStart_two_digits, Hm]].
  unfold formatTimestamp. cbv zeta.
  change 60%Q with (inject_Z 60).
  rewrite Qfloor_div_pos by lia. f_equal. f_equal. f_equal. f_equal.
  unfold Qrem_js, Qtrunc.
  replace (Qle_bool 0 (s / inject_Z 60)) with true.
  2:{ symmetry. apply Qle_bool_iff. apply Qle_shift_div_l; [reflexivity|].
      rewrite Qmult_0_l. exact Hs. }
  rewrite Qfloor_div_pos by lia.
  rewrite <- inject_Z_mult, Qfloor_sub_Z.
  rewrite Z.mod_eq by lia. reflexivity.
Qed.

Lemma formatTimestamp_nonneg_witness :
  (0 <= 191 # 2)%Q /\ formatTimestamp (191 # 2) = "1:35"%string.
Proof.
  assert (H : (0 <= 191 # 2)%Q) by (apply Qle_bool_iff; reflexivity).
  split; [exact H|].
  rewrite (proj1 (formatTimestamp_nonneg (191 # 2) H)). vm_compute. reflexivity.
Defined.

Lemma Qmax_js_ge_l (a b : Q) : (a <= Qmax_js a b)%Q.
Proof.
  unfold Qmax_js. destruct (Qlt_bool a b) eqn:E; [|lra].
  apply Qlt_bool_iff in E. lra.
Qed.

Lemma Qmin_js_le_r (a b : Q) : (Qmin_js a b <= b)%Q.
Proof.
  unfold Qmin_js. destruct (Qlt_bool b a) eqn:E; [lra|].
  apply Qlt_bool_false_iff in E. exact E.
Qed.

Lemma Qmin_js_le_l (a b : Q) : (Qmin_js a b <= a)%Q.
Proof.
  unfold Qmin_js. destruct (Qlt_bool b a) eqn:E; [|lra].
  apply Qlt_bool_iff in E. lra.
Qed.

Lemma Qfloor_times_le (d k : Q) : (0 < k)%Q -> (k * inject_Z (Qfloor (d / k)) <= d)%Q.
Proof.
  intros Hk. pose proof (Qfloor_le (d / k)) as F.
  apply (Qmult_le_compat_r _ _ k) in F; [|lra].
  rewrite Qmult_comm. eapply Qle_trans; [exact F|].
  rewrite Qmult_comm, Qmult_div_r; [lra|]. intros E. rewrite E in Hk. lra.
Qed.

(** [generateAnalysisHints] always starts with the duration hint, adds a resolution hint exactly when the width exceeds 1920 and an audio hint exactly when the video has audio; the duration hint suggests 10, 15 or 20 frames at an interval of at least one second, and for videos of 10 seconds or more those frames fit in the duration. *)
Theorem generateAnalysisHints_structure :
  forall md : VideoMetadata,
    let hs := generateAnalysisHints md in
    map ah_aspect hs
      = AspDuration :: (if 1920 <? width md then [AspResolution] else [])
                     ++ (if hasAudio md then [AspAudio] else [])
    /\ exists h rest (maxFrames interval : Q),
         hs = h :: rest
         /\ ah_parameters h = Some [("maxFrames", JNum maxFrames); ("interval", JNum interval)]
         /\ (maxFrames = 10 \/ maxFrames = 15 \/ maxFrames = 20)%Q
         /\ (1 <= interval)%Q
         /\ ((10 <= duration md)%Q -> (maxFrames * interval <= duration md)%Q).
Proof.
  intros md hs. subst hs. unfold generateAnalysisHints. cbv zeta.
  set (d := duration md).
  split.
  { destruct (Qlt_bool d 30), (Qlt_bool d 300), (1920 <? width md), (hasAudio md);
      reflexivity. }
  assert (Hfl : forall k : Q, (0 < k)%Q -> (2 * k <= d)%Q -> (1 <= inject_Z (Qfloor (d / k)))%Q).
  { intros k Hk Hd. change 1%Q with (inject_Z 1). rewrite <- Zle_Qle.
    change 1%Z with (Qfloor (inject_Z 1)). apply Qfloor_resp_le.
    apply Qle_shift_div_l; [exact Hk |]. change (inject_Z 1) with 1%Q. lra. }
  destruct (Qlt_bool d 30) eqn:E30; [|destruct (Qlt_bool d 300) eqn:E300];
    (destruct (1920 <? width md), (hasAudio md);
     do 4 eexists; (split; [reflexivity|]); (split; [reflexivity|])).
  1-4: split; [left; reflexivity|]; split; [apply Qmax_js_ge_l|];
       intros H10; unfold Qmax_js; destruct (Qlt_bool 1 (d / 10)) eqn:E;
       [ rewrite Qmult_div_r; [lra | discriminate]
       | apply Qlt_bool_false_iff in E;
         lra].
  1-4: apply Qlt_bool_false_iff in E30;
       split; [right; left; reflexivity|];
       split; [apply Hfl; [reflexivity | lra] | intros _; apply Qfloor_times_le; reflexivity].
  1-4: apply Qlt_bool_false_iff in E30; apply Qlt_bool_false_iff in E300;
       split; [right; right; reflexivity|];
       split; [apply Hfl; [reflexivity | lra] | intros _; apply Qfloor_times_le; reflexivity].
Qed.

Lemma frames_loop_prefix (fuel i : nat) (md : VideoMetadata) (fc : Q) (iv : Z) :
  exists k, (k <= fuel)%nat
            /\ frames_loop fuel i md fc iv = map (fun j => frameReference md j iv) (seq i k).
Proof.
  revert i. induction fuel as [|fuel IH]; intros i.
  - exists O. split; [lia | reflexivity].
  - cbn [frames_loop]. destruct (_ && _).
    + destruct (IH (S i)) as [k [Hk E]]. exists (S k). split; [lia|].
      rewrite E. reflexivity.
    + exists O. split; [lia | reflexivity].
Qed.

(** The frame plan of [getVideoOverview] numbers its frames 0, 1, ..., has
    at most ceil(frameCount) frames, and gives every frame the per-frame
    token estimate of the video's size and its timestamp formatted by
    [formatTimestamp].  Unless the JS quotient [duration / frameCount]
    overflows, the plan is empty exactly when the duration or the frame
    count is not positive; when it overflows (a positive frame count below
    [duration / MAX_VALUE]) the plan is empty, whatever the duration. *)
Theorem planFrames_structure :
  forall (md : VideoMetadata) (frameCount : Q),
    let fs := planFrames md frameCount in
    map fr_index fs = map Z.of_nat (seq 0 (length fs))
    /\ (length fs <= Z.to_nat (Qceiling frameCount))%nat
    /\ ((frameCount <= 0 \/ duration md / frameCount <= MAX_VALUE)%Q ->
        (fs = [] <-> (duration md <= 0 \/ frameCount <= 0)%Q))
    /\ ((duration md <= MAX_VALUE)%Q -> (OVERFLOW_LIMIT <= duration md / frameCount)%Q ->
        fs = [])
    /\ Forall (fun f => fr_estimatedTokens f = estimateFrameTokens (width md) (height md)
                        /\ fr_timestampFormatted f = formatTimestamp (fr_timestamp f)) fs.
Proof.
  intros md fc fs. subst fs. unfold planFrames.
  destruct (frameInterval_js (duration md) fc) as [iv|] eqn:Ej.
  - destruct (frames_loop_prefix (Z.to_nat (Qceiling fc)) 0 md fc iv) as [k [Hk E]].
    split; [|split; [|split; [|split]]].
    + rewrite E, length_map, length_seq, map_map. reflexivity.
    + rewrite E, length_map, length_seq. exact Hk.
    + intros _. destruct (Z.to_nat (Qceiling fc)) as [|fuel] eqn:Ef.
      * cbn. split; [intros _; right | intros _; reflexivity].
        pose proof (Qle_ceiling fc) as Hc. assert (Hc0 : Qceiling fc <= 0) by lia.
        rewrite Zle_Qle in Hc0. change (inject_Z 0) with 0%Q in Hc0. lra.
      * assert (Hc : 0 < Qceiling fc) by lia.
        assert (Hfc : (0 < fc)%Q).
        { apply Qnot_le_lt. intros Hle. apply Qceiling_resp_le in Hle.
          change (Qceiling 0) with 0 in Hle. lia. }
        cbn [frames_loop].
        replace (Qlt_bool (inject_Z (Z.of_nat 0)) fc) with true
          by (symmetry; apply Qlt_bool_iff; exact Hfc).
        cbn [andb].
        replace (Z.of_nat 0 * iv) with 0 by lia.
        destruct (Qlt_bool (inject_Z 0) (duration md)) eqn:Ed.
        -- apply Qlt_bool_iff in Ed. change (inject_Z 0) with 0%Q in Ed.
           split; [intros Hn; discriminate Hn|]. intros [H|H]; cbn in *; lra.
        -- apply Qlt_bool_false_iff in Ed. change (inject_Z 0) with 0%Q in Ed.
           split; [intros _; left; exact Ed | reflexivity].
    + intros Hd Hov. exfalso. unfold frameInterval_js in Ej.
      apply Qle_bool_iff in Hd, Hov. rewrite Hd, Hov in Ej. discriminate Ej.
    + rewrite E. apply Forall_map, List.Forall_forall. intros j _. split; reflexivity.
  - split; [reflexivity|]. split; [cbn; lia|].
    split; [|split; [intros _ _; reflexivity | constructor]].
    intros Hpre. split; [intros _ | intros _; reflexivity].
    destruct Hpre as [Hfc|Hq]; [right; exact Hfc|].
    exfalso. unfold frameInterval_js in Ej.
    destruct (Qle_bool _ _ && Qle_bool _ _) eqn:Eb; [|discriminate Ej].
    apply andb_prop in Eb as [_ Eb]. apply Qle_bool_iff in Eb.
    pose proof MAX_VALUE_lt_limit. lra.
Qed.

Section PrioritySort.

Local Abbreviation cmp := (fun a b : ContextHint => ch_priority b - ch_priority a).
Local Abbreviation fp p := (fun h : ContextHint => Z.eqb (ch_priority h) p).

Lemma sort_insert_perm (x : ContextHint) (l : list ContextHint) :
  Permutation (x :: l) (sort_insert cmp x l).
Proof.
  induction l as [|y l IH]; cbn; [reflexivity|].
  destruct (0 <? cmp y x); [reflexivity|].
  rewrite perm_swap. constructor. exact IH.
Qed.

Lemma sort_insert_sorted (x : ContextHint) (l : list ContextHint) :
  StronglySorted priority_desc l -> StronglySorted priority_desc (sort_insert cmp x l).
Proof.
  induction l as [|y l IH]; intros Hs; cbn.
  - repeat constructor.
  - inversion Hs as [|? ? Hl Hy]; subst.
    cbv beta. destruct (0 <? ch_priority x - ch_priority y) eqn:E.
    + apply Z.ltb_lt in E. constructor; [exact Hs|].
      constructor; [unfold priority_desc; lia|].
      eapply Forall_impl; [exact Hy|]. unfold priority_desc. intros a Ha. lia.
    + apply Z.ltb_ge in E. constructor; [apply IH, Hl|].
      apply (Permutation_Forall (sort_insert_perm x l)).
      constructor; [unfold priority_desc; lia | exact Hy].
Qed.

Lemma sort_insert_filter (x : ContextHint) (l : list ContextHint) (p : Z) :
  StronglySorted priority_desc l ->
  List.filter (fp p) (sort_insert cmp x l) = List.filter (fp p) l ++ List.filter (fp p) [x].
Proof.
  induction l as [|y l IH]; intros Hs; [reflexivity|].
  inversion Hs as [|? ? Hl Hy]; subst.
  cbn [sort_insert]. cbv beta.
  destruct (0 <? ch_priority x - ch_priority y) eqn:E.
  - apply Z.ltb_lt in E.
    change (List.filter (fp p) (x :: y :: l))
      with (if fp p x then x :: List.filter (fp p) (y :: l) else List.filter (fp p) (y :: l)).
    change (List.filter (fp p) [x]) with (if fp p x then [x] else []).
    destruct (fp p x) eqn:Ex.
    + assert (Hnone : List.filter (fp p) (y :: l) = []).
      { apply filter_all_false. intros z Hz. cbv beta in *. apply Z.eqb_eq in Ex.
        apply Z.eqb_neq. destruct Hz as [<-|Hz]; [lia|].
        rewrite List.Forall_forall in Hy. specialize (Hy z Hz). unfold priority_desc in Hy. lia. }
      rewrite Hnone. reflexivity.
    + rewrite app_nil_r. reflexivity.
  - change (List.filter (fp p) (y :: sort_insert cmp x l))
      with (if fp p y then y :: List.filter (fp p) (sort_insert cmp x l)
            else List.filter (fp p) (sort_insert cmp x l)).
    change (List.filter (fp p) (y :: l))
      with (if fp p y then y :: List.filter (fp p) l else List.filter (fp p) l).
    rewrite IH by exact Hl. destruct (fp p y); reflexivity.
Qed.


Lemma js_sort_fold (l acc : list ContextHint) (p : Z) :
  StronglySorted priority_desc acc ->
  StronglySorted priority_desc (fold_left (fun acc x => sort_insert cmp x acc) l acc)
  /\ Permutation (acc ++ l) (fold_left (fun acc x => sort_insert cmp x acc) l acc)
  /\ List.filter (fp p) (fold_left (fun acc x => sort_insert cmp x acc) l acc)
     = List.filter (fp p) acc ++ List.filter (fp p) l.
Proof.
  revert acc. induction l as [|x l IH]; intros acc Hs; cbn.
  - rewrite !app_nil_r. split; [exact Hs | split; reflexivity].
  - destruct (IH (sort_insert cmp x acc) (sort_insert_sorted x acc Hs)) as [H1 [H2 H3]].
    split; [exact H1|]. split.
    + rewrite <- H2. replace (acc ++ x :: l) with ((acc ++ [x]) ++ l)
        by (rewrite <- app_assoc; reflexivity).
      apply Permutation_app_tail.
      rewrite (Permutation_app_comm acc [x]). apply sort_insert_perm.
    + rewrite H3, sort_insert_filter by exact Hs. rewrite <- app_assoc. cbn.
      destruct (fp p x); reflexivity.
Qed.

End PrioritySort.

(** The priority sort of [generateContextHints] returns a permutation of the hints in non-increasing priority, and hints of equal priority keep their input order. *)
Theorem priority_sort_stable :
  forall hints : list ContextHint,
    let sorted := js_sort (fun a b => ch_priority b - ch_priority a) hints in
    Permutation hints sorted
    /\ Sorted priority_desc sorted
    /\ (forall p, List.filter (fun h => Z.eqb (ch_priority h) p) sorted
                  = List.filter (fun h => Z.eqb (ch_priority h) p) hints).
Proof.
  intros hints sorted. subst sorted. unfold js_sort.
  destruct (js_sort_fold hints [] 0 (SSorted_nil _)) as [H1 [H2 _]].
  split; [exact H2|]. split.
  - apply StronglySorted_Sorted. exact H1.
  - intros p. destruct (js_sort_fold hints [] p (SSorted_nil _)) as [_ [_ H3]].
    exact H3.
Qed.

Lemma Qceiling_nonneg (q : Q) : (0 <= q)%Q -> 0 <= Qceiling q.
Proof. intros H. change 0 with (Qceiling 0). apply Qceiling_resp_le. exact H. Qed.

(** [estimateBase64Tokens] gives a finite non-negative integer on a non-negative length and does not decrease when the length grows. *)
Theorem estimateBase64Tokens_nonneg_monotone :
  forall n m : Q, (0 <= n)%Q -> (n <= m)%Q ->
    (exists k, estimateBase64Tokens n = JFin (inject_Z k) /\ 0 <= k)
    /\ js_ge (estimateBase64Tokens m) (estimateBase64Tokens n) = true.
Proof.
  intros n m Hn Hnm.
  assert (Hlin : forall x : Q,
            (x / 1024 * TOKENS_PER_KB_BASE64 * 1000 * TOKENS_PER_CHAR == x * (665 # 2048))%Q).
  { intros x. unfold TOKENS_PER_KB_BASE64, TOKENS_PER_CHAR. field. }
  unfold estimateBase64Tokens. cbn [js_ceil js_ge].
  rewrite (Qceiling_comp _ _ (Hlin n)), (Qceiling_comp _ _ (Hlin m)).
  split.
  - eexists. split; [reflexivity|]. apply Qceiling_nonneg.
    apply Qmult_le_0_compat; [exact Hn | discriminate].
  - apply Qle_bool_iff. rewrite <- Zle_Qle. apply Qceiling_resp_le.
    apply Qmult_le_compat_r; [exact Hnm | discriminate].
Qed.

Lemma frame_pixels_nonneg (w h : Z) : 0 < w -> 0 <= h -> 0 <= frame_pixels w h.
Proof.
  intros Hw Hh. unfold frame_pixels. cbv zeta.
  apply Z.mul_nonneg_nonneg; [lia|]. unfold Qround_js.
  change 0 with (Qfloor 0). apply Qfloor_resp_le.
  assert (H : (0 <= inject_Z (Z.min w 1920 * h) / inject_Z w)%Q).
  { apply Qle_shift_div_l; [change 0%Q with (inject_Z 0); rewrite <- Zlt_Qlt; exact Hw|].
    rewrite Qmult_0_l. change 0%Q with (inject_Z 0). rewrite <- Zle_Qle.
    apply Z.mul_nonneg_nonneg; lia. }
  lra.
Qed.

(** For a positive width, [estimateFrameTokens] gives a finite non-negative integer when the height is non-negative, and a frame wider than 1920 pixels is estimated as its downscale to width 1920 with the height rounded proportionally. *)
Theorem estimateFrameTokens_nonneg_and_downscale :
  forall w h : Z, 0 < w ->
    (0 <= h -> exists k, estimateFrameTokens w h = JFin (inject_Z k) /\ 0 <= k)
    /\ (1920 < w ->
        estimateFrameTokens w h
        = estimateFrameTokens 1920 (Qround_js (inject_Z (1920 * h) / inject_Z w))).
Proof.
  intros w h Hw. split.
  - intros Hh. rewrite estimateFrameTokens_closed by lia.
    eexists. split; [reflexivity|]. apply Qceiling_nonneg.
    apply Qmult_le_0_compat.
    + change 0%Q with (inject_Z 0). rewrite <- Zle_Qle. apply frame_pixels_nonneg; assumption.
    + apply Qlt_le_weak, frame_token_rate_pos.
  - intros Hbig. rewrite !estimateFrameTokens_closed by lia.
    rewrite (frame_pixels_small 1920) by lia.
    unfold frame_pixels. rewrite Z.min_r by lia. reflexivity.
Qed.

Lemma estimateFrameTokens_nonneg_and_downscale_witness :
  0 < 3840
  /\ estimateFrameTokens 3840 2160 = estimateFrameTokens 1920 1080.
Proof.
  split; [lia|].
  exact (proj2 (estimateFrameTokens_nonneg_and_downscale 3840 2160 ltac:(lia)) ltac:(lia)).
Defined.

Lemma estimateBase64Tokens_nonneg_monotone_witness :
  (0 <= 100)%Q /\ (100 <= 4096)%Q
  /\ js_ge (estimateBase64Tokens 4096) (estimateBase64Tokens 100) = true.
Proof.
  split; [lra|]. split; [lra|].
  exact (proj2 (estimateBase64Tokens_nonneg_monotone 100 4096 ltac:(lra) ltac:(lra))).
Defined.

(** [extractSingleFrame] keeps the state, and whatever the decoder, resizer or encoder do, it decodes into one temporary frame file and removes that file as its last action. *)
Theorem extractSingleFrame_always_removes_frame :
  forall (env : Env) (s : ProcState) (videoPath : string) (timestamp maxWidth quality : Q)
         (fmt : img_format),
    let framePath :=
      path_join (tempDir env)
        (String.append "frame-" (String.append (show_Z (env_now env))
                                   (String.append "." (img_ext fmt)))) in
    let m := extractSingleFrame videoPath timestamp maxWidth fmt quality in
    run_state m env s = s
    /\ exists mid,
         run_trace m env s
         = EvMkdir (tempDir env) :: EvDecodeFrame videoPath timestamp framePath
             :: mid ++ [EvRm framePath]
         /\ Forall (fun e => e = EvResize maxWidth \/ e = EvEncode fmt) mid.
Proof.
  intros env s p ts mw q fmt framePath m. subst m.
  split; [apply extractSingleFrame_keeps|].
  unfold run_trace, extractSingleFrame, ensureTempDir, try_finally, resize_if_needed,
    encode, lift_result.
  unfold mbind, M_bind, mret, M_ret, ask, emit, throw. cbn.
  destruct (env_ffmpeg_frame env p ts) as [[img|]|e]; cbn.
  - destruct (img_width img) as [w|]; cbn;
      [destruct (negb (w =? 0) && Qlt_bool mw (inject_Z w)); cbn;
        [destruct (env_sharp_resize env img mw); cbn|]|];
      try (destruct (env_sharp_encode env _ fmt q); cbn);
      first [ exists [EvEncode fmt]; split; [reflexivity | repeat (apply List.Forall_cons; [auto|]); apply List.Forall_nil]
            | exists [EvResize mw; EvEncode fmt]; split; [reflexivity | repeat (apply List.Forall_cons; [auto|]); apply List.Forall_nil]
            | exists [EvResize mw]; split; [reflexivity | repeat (apply List.Forall_cons; [auto|]); apply List.Forall_nil] ].
  - exists []. split; [reflexivity | constructor].
  - exists []. split; [reflexivity | constructor].
Qed.

Lemma getMetadata_keeps (p : string) : keeps_state (getMetadata p).
Proof. unfold getMetadata. keeps_tac. Qed.

Lemma extractFrames_run (p : string) (mf : Q) (iv : option Q) (mw : Q) (fmt : img_format)
    (q : Q) (env : Env) (s : ProcState) :
  extractFrames p mf iv mw fmt q env s
  = let frameDir := path_join (tempDir env)
                      (String.append "frames-" (show_Z (env_now env))) in
    match env_mkdir env frameDir with
    | inr e => (s, [EvMkdir (tempDir env); EvMkdir frameDir], inr e)
    | inl _ =>
    match getMetadata p env s with
    | (s1, t1, inl md) =>
        let iv' := extractFrames_interval (duration md) mf iv in
        match for_each_seq (extractFrames_one p frameDir iv' mw fmt q)
                (seq 0 (Z.to_nat (Qceiling (extractFrames_total (duration md) mf iv'))))
                env s1 with
        | (s2, t2, r) =>
            (s2, EvMkdir (tempDir env) :: EvMkdir frameDir :: t1 ++ t2 ++ [EvRm frameDir], r)
        end
    | (s1, t1, inr e) => (s1, EvMkdir (tempDir env) :: EvMkdir frameDir :: t1, inr e)
    end
    end.
Proof.
  unfold extractFrames, ensureTempDir, try_finally, lift_result.
  unfold mbind, M_bind, ask, emit, mret, M_ret, throw. cbn.
  destruct (env_mkdir env _) as [[]|e]; cbn; [|reflexivity].
  destruct (getMetadata p env s) as [[s1 t1] [md|e]]; [|reflexivity].
  destruct (for_each_seq _ _ env s1) as [[s2 t2] r]. cbn.
  rewrite ?app_nil_r, <- ?app_assoc. reflexivity.
Qed.

Lemma no_rm_in_metadata (p d : string) (t : list event) :
  Forall (metadata_event p) t -> ~ In (EvRm d) t.
Proof.
  intros H Hin. rewrite List.Forall_forall in H. apply H in Hin. exact Hin.
Qed.

(** When the [fs.mkdir] of its frame directory fails, [extractFrames]
    returns that error before probing the video.  When the directory is
    created and reading the metadata fails, it returns that error having
    created its frame directory and never removing it; when the metadata is
    read, the run creates the directory first and removes it as its last
    action. *)
Theorem extractFrames_frame_dir_cleanup :
  forall (env : Env) (s : ProcState) (videoPath : string) (maxFrames : Q)
         (interval : option Q) (maxWidth : Q) (fmt : img_format) (quality : Q),
    let frameDir := path_join (tempDir env)
                      (String.append "frames-" (show_Z (env_now env))) in
    let m := extractFrames videoPath maxFrames interval maxWidth fmt quality in
    (forall e, env_mkdir env frameDir = inr e ->
       run_result m env s = inr e
       /\ run_trace m env s = [EvMkdir (tempDir env); EvMkdir frameDir])
    /\ (forall u e, env_mkdir env frameDir = inl u ->
          run_result (getMetadata videoPath) env s = inr e ->
          run_result m env s = inr e
          /\ In (EvMkdir frameDir) (run_trace m env s)
          /\ ~ In (EvRm frameDir) (run_trace m env s))
    /\ (forall u md, env_mkdir env frameDir = inl u ->
          run_result (getMetadata videoPath) env s = inl md ->
          exists t, run_trace m env s
                    = EvMkdir (tempDir env) :: EvMkdir frameDir :: EvProbe videoPath
                        :: EvStat videoPath :: t ++ [EvRm frameDir]).
Proof.
  intros env s p mf iv mw fmt q frameDir m. subst m.
  pose proof (getMetadata_emits p env s) as Hem.
  unfold run_result, run_trace in *. rewrite extractFrames_run. cbv zeta. fold frameDir.
  split; [|split].
  - intros e He. rewrite He. split; reflexivity.
  - intros u e Hu He. rewrite Hu.
    destruct (getMetadata p env s) as [[s1 t1] r1]. cbn in He, Hem |- *.
    subst r1. split; [reflexivity|]. split; [right; left; reflexivity|].
    intros [H|[H|H]]; [discriminate H | discriminate H |].
    exact (no_rm_in_metadata p frameDir t1 Hem H).
  - intros u md Hu Hmd. rewrite Hu. apply getMetadata_success in Hmd. rewrite Hmd. cbn.
    destruct (for_each_seq _ _ env s) as [[s2 t2] r]. cbn.
    exists t2. reflexivity.
Qed.

Lemma extractFrames_one_decodes p dir iv mw fmt q (i : nat) env s :
  decode_requests (run_trace (extractFrames_one p dir iv mw fmt q i) env s)
  = [(p, (inject_Z (Z.of_nat i) * iv)%Q)].
Proof.
  unfold run_trace, extractFrames_one, resize_if_needed, encode, lift_result.
  unfold mbind, M_bind, mret, M_ret, ask, emit, throw. cbn.
  destruct (env_ffmpeg_frame env p _) as [[img|]|e]; cbn; [|reflexivity|reflexivity].
  destruct (img_width img) as [w|]; cbn;
    [destruct (negb (w =? 0) && Qlt_bool mw (inject_Z w)); cbn;
      [destruct (env_sharp_resize env img mw); cbn; [|reflexivity]|]|];
    destruct (env_sharp_encode env _ fmt q); reflexivity.
Qed.

Lemma for_each_seq_decodes {A} (f : nat -> M A) (g : nat -> string * Q) :
  (forall i env s, decode_requests (run_trace (f i) env s) = [g i]) ->
  forall (n a : nat) env s, exists k, (k <= n)%nat
    /\ decode_requests (run_trace (for_each_seq f (seq a n)) env s) = map g (seq a k).
Proof.
  intros Hf n. induction n as [|n IH]; intros a env s.
  - exists O. split; [lia | reflexivity].
  - cbn [seq for_each_seq]. specialize (Hf a env s).
    unfold run_trace in *. unfold mbind at 1, M_bind at 1.
    destruct (f a env s) as [[s1 t1] [x|e]]; cbn in Hf |- *.
    + destruct (IH (S a) env s1) as [k [Hk E]].
      unfold mbind, M_bind, mret, M_ret in *.
      destruct (for_each_seq f (seq (S a) n) env s1) as [[s2 t2] [xs|e]]; cbn in E |- *;
        exists (S k); (split; [lia|]); unfold decode_requests in *;
        rewrite ?app_nil_r, flat_map_app, Hf, E; reflexivity.
    + exists 1%nat. split; [lia|]. exact Hf.
Qed.

Lemma lt_ceiling (i : Z) (x : Q) : i < Qceiling x -> (inject_Z i < x)%Q.
Proof.
  intros H. apply Qnot_le_lt. intros Hle. apply Qceiling_resp_le in Hle.
  rewrite Qceiling_Z in Hle. lia.
Qed.

Lemma ts_in_range (i d iv : Q) :
  (0 <= i)%Q -> (0 <= d)%Q -> (i + 1 <= d / iv)%Q -> (0 <= i * iv)%Q /\ (i * iv < d)%Q.
Proof.
  intros Hi Hd H.
  destruct (Qlt_le_dec 0 iv) as [Hp|Hn].
  - assert (E : (d / iv * iv == d)%Q) by (field; lra). nra.
  - exfalso. destruct (Qeq_dec iv 0) as [Z0|Z0].
    + rewrite Z0 in H. unfold Qdiv in H. rewrite Qmult_0_r in H. lra.
    + assert (E : (d / iv * iv == d)%Q) by (field; exact Z0).
      assert (Hlt : (iv < 0)%Q)
        by (apply Qle_lteq in Hn as [Hn|Hn]; [exact Hn | exfalso; apply Z0; exact Hn]).
      nra.
Qed.

(** Once the metadata is read with a non-negative duration, [extractFrames] asks the decoder for the frames at 0, interval, 2 interval, ... in that order, at most ceil(maxFrames) of them, every timestamp lying in [0, duration). *)
Theorem extractFrames_decodes_in_range :
  forall (env : Env) (s : ProcState) (videoPath : string) (maxFrames : Q)
         (interval : option Q) (maxWidth : Q) (fmt : img_format) (quality : Q)
         (md : VideoMetadata),
    run_result (getMetadata videoPath) env s = inl md ->
    (0 <= duration md)%Q ->
    let frameInterval := extractFrames_interval (duration md) maxFrames interval in
    exists k, (k <= Z.to_nat (Qceiling maxFrames))%nat
      /\ decode_requests
           (run_trace (extractFrames videoPath maxFrames interval maxWidth fmt quality) env s)
         = map (fun i => (videoPath, (inject_Z (Z.of_nat i) * frameInterval)%Q)) (seq 0 k)
      /\ Forall (fun i => 0 <= inject_Z (Z.of_nat i) * frameInterval < duration md)%Q
           (seq 0 k).
Proof.
  intros env s p mf iv mw fmt q md Hmd Hd fi.
  apply getMetadata_success in Hmd.
  unfold run_trace. rewrite extractFrames_run. cbv zeta.
  destruct (env_mkdir env _) as [u|e];
    [|exists O; split; [lia | split; [reflexivity | constructor]]].
  rewrite Hmd.
  set (N := Z.to_nat (Qceiling (extractFrames_total (duration md) mf fi))).
  set (dir := path_join (tempDir env) (String.append "frames-" (show_Z (env_now env)))).
  destruct (for_each_seq_decodes _ (fun i => (p, (inject_Z (Z.of_nat i) * fi)%Q))
              (fun i env s => extractFrames_one_decodes p dir fi mw fmt q i env s)
              N 0 env s) as [k [Hk E]].
  unfold run_trace in E.
  destruct (for_each_seq _ _ env s) as [[s2 t2] r]. cbn in E |- *.
  exists k. split; [|split].
  - etransitivity; [exact Hk|]. unfold N, extractFrames_total.
    enough (Qceiling (Qmin_js mf (inject_Z (Qfloor (duration md / fi)))) <= Qceiling mf)
      by lia.
    apply Qceiling_resp_le, Qmin_js_le_l.
  - unfold decode_requests in *. cbn.
    rewrite !flat_map_app. cbn. rewrite E, app_nil_r. reflexivity.
  - apply List.Forall_forall. intros i Hi. apply in_seq in Hi.
    assert (HiN : (i < N)%nat) by lia.
    unfold N in HiN.
    assert (H1 : (inject_Z (Z.of_nat i) < extractFrames_total (duration md) mf fi)%Q)
      by (apply lt_ceiling; lia).
    unfold extractFrames_total in H1.
    pose proof (Qmin_js_le_r mf (inject_Z (Qfloor (duration md / fi)))) as H2.
    assert (H3 : Z.of_nat i < Qfloor (duration md / fi)).
    { rewrite Zlt_Qlt. eapply Qlt_le_trans; [exact H1 | exact H2]. }
    assert (H4 : (inject_Z (Z.of_nat i) + 1 <= duration md / fi)%Q).
    { eapply Qle_trans; [|apply Qfloor_le].
      change 1%Q with (inject_Z 1). rewrite <- inject_Z_plus, <- Zle_Qle. lia. }
    apply ts_in_range; [| exact Hd | exact H4].
    change 0%Q with (inject_Z 0). rewrite <- Zle_Qle. lia.
Qed.

Lemma dam_bind {A B} (a b : nat) (m : M A) (k : A -> M B) :
  decodes_at_most a m -> (forall x, decodes_at_most b (k x)) ->
  decodes_at_most (a + b) (mbind k m).
Proof.
  intros Hm Hk env s. specialize (Hm env s). unfold run_trace in *.
  unfold mbind, M_bind. destruct (m env s) as [[s1 t1] [x|e]]; cbn in *; [|lia].
  specialize (Hk x env s1). unfold run_trace in Hk.
  destruct (k x env s1) as [[s2 t2] r2]; cbn in *.
  unfold decode_requests in *. rewrite flat_map_app, length_app. lia.
Qed.

Lemma dam_mono {A} (a b : nat) (m : M A) :
  (a <= b)%nat -> decodes_at_most a m -> decodes_at_most b m.
Proof. intros Hab H env s. specialize (H env s). lia. Qed.

Lemma dam_of_emits {A} (m : M A) :
  emits_only (fun e => decode_requests [e] = []) m -> decodes_at_most 0 m.
Proof.
  intros H env s. specialize (H env s).
  induction H as [|e t He _ IH]; [cbn; lia|].
  unfold decode_requests in *. cbn in He |- *. rewrite app_nil_r in He. rewrite He. exact IH.
Qed.

Lemma dam_try_catch {A} (n : nat) (m : M A) :
  decodes_at_most n m -> decodes_at_most n (try_catch m).
Proof.
  intros H env s. specialize (H env s). unfold run_trace, try_catch in *.
  destruct (m env s) as [[s1 t1] [x|e]]; exact H.
Qed.

Lemma dam_catch_to_response (n : nat) m :
  decodes_at_most n m -> decodes_at_most n (catch_to_response m).
Proof.
  intros H env s. specialize (H env s). unfold run_trace, catch_to_response in *.
  destruct (m env s) as [[s1 t1] [x|e]]; exact H.
Qed.

Lemma metadata_no_decodes (p : string) (t : list event) :
  Forall (metadata_event p) t -> decode_requests t = [].
Proof.
  induction 1 as [|e t He _ IH]; [reflexivity|].
  destruct e; cbn in He |- *; try contradiction; exact IH.
Qed.

Lemma extractFrames_decode_count p mf iv mw fmt q :
  decodes_at_most (Z.to_nat (Qceiling mf)) (extractFrames p mf iv mw fmt q).
Proof.
  intros env s. pose proof (getMetadata_emits p env s) as Hem.
  unfold run_trace in *. rewrite extractFrames_run. cbv zeta.
  destruct (env_mkdir env _) as [u|e0]; [|cbn; lia].
  destruct (getMetadata p env s) as [[s1 t1] [md|e]] eqn:Eg; cbn in Hem.
  - set (fi := extractFrames_interval (duration md) mf iv).
    set (dir := path_join (tempDir env) (String.append "frames-" (show_Z (env_now env)))).
    destruct (for_each_seq_decodes _ (fun i => (p, (inject_Z (Z.of_nat i) * fi)%Q))
                (fun i env s => extractFrames_one_decodes p dir fi mw fmt q i env s)
                (Z.to_nat (Qceiling (extractFrames_total (duration md) mf fi))) 0 env s1)
      as [k [Hk E]].
    unfold run_trace in E.
    destruct (for_each_seq _ _ env s1) as [[s2 t2] r]. cbn in E |- *.
    pose proof (metadata_no_decodes p t1 Hem) as Ht1.
    unfold decode_requests in *. cbn. rewrite !flat_map_app, Ht1, E. cbn.
    rewrite app_nil_r, length_map, length_seq.
    etransitivity; [exact Hk|].
    enough (Qceiling (extractFrames_total (duration md) mf fi) <= Qceiling mf) by lia.
    apply Qceiling_resp_le, Qmin_js_le_l.
  - pose proof (metadata_no_decodes p t1 Hem) as Ht1.
    unfold decode_requests in *. cbn. rewrite Ht1. cbn. lia.
Qed.

Ltac nodec_tac :=
  apply dam_of_emits;
  repeat (cbv beta zeta;
    first
    [ apply only_bind; [| intros ?]
    | apply only_ret
    | apply only_ask
    | apply only_throw
    | apply only_lift_result
    | apply only_cache_set
    | apply only_emit; reflexivity
    | match goal with
      | |- emits_only _ (match ?x with _ => _ end) => destruct x
      | |- emits_only _ (if ?x then _ else _) => destruct x
      end ]).

Lemma analyzeVideo_decode_count p ef mf ea fi :
  decodes_at_most (Z.to_nat (Qceiling mf)) (analyzeVideo p ef mf ea fi).
Proof.
  unfold analyzeVideo.
  apply (dam_mono (0 + (Z.to_nat (Qceiling mf) + (0 + 0)))); [lia|].
  apply dam_bind; [unfold getMetadata; nodec_tac | intros md].
  apply dam_bind; [destruct ef; [apply extractFrames_decode_count|]|intros frames].
  - apply (dam_mono 0); [lia|]. nodec_tac.
  - apply dam_bind; [|intros ap; nodec_tac].
    destruct (ea && hasAudio md); [|nodec_tac].
    apply dam_try_catch. unfold extractAudio, ensureTempDir. nodec_tac.
Qed.

(** The [analyze_video_full] tool asks the decoder for at most 15 frames, whatever its arguments and the environment. *)
Theorem analyze_video_full_at_most_15_decodes :
  forall (env : Env) (s : ProcState) (videoPath : string) (maxFrames : option Q)
         (extractAudio : option bool) (frameInterval : option Q),
    (length (decode_requests
               (run_trace (callTool (TAnalyzeVideoFull videoPath maxFrames extractAudio
                                       frameInterval)) env s)) <= 15)%nat.
Proof.
  intros env s p mf ea fi.
  enough (H : decodes_at_most 15 (callTool (TAnalyzeVideoFull p mf ea fi))) by apply H.
  unfold callTool. apply dam_catch_to_response. unfold handle_analyze_video_full.
  cbv zeta.
  set (mf' := Qmin_js (default mf 8%Q) 15).
  assert (Hc : (Z.to_nat (Qceiling mf') <= 15)%nat).
  { enough (Qceiling mf' <= 15) by lia.
    change 15 with (Qceiling 15). apply Qceiling_resp_le, Qmin_js_le_r. }
  change 15%nat with (0 + (0 + (15 + (0 + 0))))%nat.
  apply dam_bind; [unfold checkFile; nodec_tac | intros ok].
  destruct (negb ok).
  - apply (dam_mono 0); [lia|]. nodec_tac.
  - apply dam_bind; [unfold estimateTokens, getMetadata; nodec_tac | intros est].
    apply dam_bind; [apply (dam_mono _ _ _ Hc), analyzeVideo_decode_count | intros an].
    apply dam_bind; [unfold getMetadataSummary, getMetadata; nodec_tac | intros sm].
    nodec_tac.
Qed.

Lemma only_try_finally (P : event -> Prop) {A} (m : M A) fin :
  emits_only P m -> emits_only P fin -> emits_only P (try_finally m fin).
Proof.
  intros Hm Hf env s. specialize (Hm env s). unfold run_trace, try_finally in *.
  destruct (m env s) as [[s1 t1] r]. specialize (Hf env s1). unfold run_trace in Hf.
  destruct (fin env s1) as [[s2 t2] r2]. cbn in *. apply Forall_app; split; assumption.
Qed.

Lemma only_for_each_seq (P : event -> Prop) {A} (f : nat -> M A) (is : list nat) :
  (forall i, emits_only P (f i)) -> emits_only P (for_each_seq f is).
Proof.
  intros Hf. induction is as [|i is IH]; cbn.
  - apply only_ret.
  - apply only_bind; [apply Hf | intros x]. apply only_bind; [exact IH | intros xs].
    apply only_ret.
Qed.

Ltac only_full_tac :=
  repeat (cbv beta zeta;
    first
    [ apply only_bind; [| intros ?]
    | apply only_ret
    | apply only_ask
    | apply only_throw
    | apply only_lift_result
    | apply only_cache_set
    | apply only_try_finally
    | apply only_for_each_seq; intros ?
    | apply only_emit; reflexivity
    | progress unfold getMetadata, ensureTempDir, resize_if_needed, encode,
        extractFrames_one, extractFrames
    | match goal with
      | |- emits_only _ (match ?x with _ => _ end) => destruct x
      | |- emits_only _ (if ?x then _ else _) => destruct x
      end ]).

Lemma extractFrames_no_audio p mf iv mw fmt q :
  emits_only no_audio_event (extractFrames p mf iv mw fmt q).
Proof. only_full_tac. Qed.

Lemma getMetadata_no_audio p : emits_only no_audio_event (getMetadata p).
Proof. only_full_tac. Qed.

Lemma keeps_for_each_seq {A} (f : nat -> M A) (is : list nat) :
  (forall i, keeps_state (f i)) -> keeps_state (for_each_seq f is).
Proof.
  intros Hf. induction is as [|i is IH]; cbn.
  - apply keeps_ret.
  - apply keeps_bind; [apply Hf | intros x]. apply keeps_bind; [exact IH | intros xs].
    apply keeps_ret.
Qed.

Lemma extractFrames_keeps p mf iv mw fmt q : keeps_state (extractFrames p mf iv mw fmt q).
Proof.
  unfold extractFrames, ensureTempDir. keeps_tac.
  all: first
    [ apply getMetadata_keeps
    | apply keeps_for_each_seq; intros i;
      unfold extractFrames_one, resize_if_needed, encode; keeps_tac ].
Qed.

Lemma no_audio_not_in (cmd : AudioCommand) (t : list event) :
  Forall no_audio_event t -> ~ In (EvExtractAudio cmd) t.
Proof.
  intros H Hin. rewrite List.Forall_forall in H. apply H in Hin. discriminate Hin.
Qed.

Lemma analyzeVideo_run p ef mf ea fi env s :
  analyzeVideo p ef mf ea fi env s
  = match getMetadata p env s with
    | (s1, t1, inr e) => (s1, t1, inr e)
    | (s1, t1, inl md) =>
        match (if ef then extractFrames p mf fi 1920 Jpeg 80 else mret []) env s1 with
        | (s2, t2, inr e) => (s2, t1 ++ t2, inr e)
        | (s2, t2, inl frames) =>
            match (if ea && hasAudio md
                   then try_catch (extractAudio p Mp3 "128k" None None)
                   else mret None) env s2 with
            | (s3, t3, inl ap) =>
                (s3, t1 ++ t2 ++ t3,
                 inl {| va_metadata := md; va_frames := frames; va_audioPath := ap |})
            | (s3, t3, inr e) => (s3, t1 ++ t2 ++ t3, inr e)
            end
        end
    end.
Proof.
  unfold analyzeVideo. unfold mbind, M_bind.
  destruct (getMetadata p env s) as [[s1 t1] [md|e]]; [|reflexivity].
  destruct ef;
    [ destruct (extractFrames p mf fi 1920 Jpeg 80 env s1) as [[s2 t2] [frames|e]];
      [|reflexivity]
    | cbn [mret M_ret] ];
    (destruct (ea && hasAudio md);
     [ destruct (try_catch (extractAudio p Mp3 "128k" None None) env _) as [[s3 t3] [ap|e]]
     | cbn [mret M_ret] ]);
    cbn [mret M_ret]; rewrite ?app_nil_r; reflexivity.
Qed.

(** [analyzeVideo] fails only with an error of [getMetadata] or, when frames are requested, of [extractFrames]: audio extraction errors are swallowed; the audio extractor runs only when audio is requested and the video has audio, and an audio path is reported only in that case. *)
Theorem analyzeVideo_audio_optional :
  forall (env : Env) (s : ProcState) (videoPath : string) (shouldExtractFrames : bool)
         (maxFrames : Q) (shouldExtractAudio : bool) (frameInterval : option Q),
    let m := analyzeVideo videoPath shouldExtractFrames maxFrames shouldExtractAudio
               frameInterval in
    (forall e, run_result m env s = inr e ->
       run_result (getMetadata videoPath) env s = inr e
       \/ (shouldExtractFrames = true
           /\ run_result (extractFrames videoPath maxFrames frameInterval 1920 Jpeg 80) env s
              = inr e))
    /\ (forall cmd, In (EvExtractAudio cmd) (run_trace m env s) ->
          shouldExtractAudio = true
          /\ exists md, run_result (getMetadata videoPath) env s = inl md
                        /\ hasAudio md = true)
    /\ (forall va, run_result m env s = inl va -> va_audioPath va <> None ->
          shouldExtractAudio = true /\ hasAudio (va_metadata va) = true).
Proof.
  intros env s p ef mf ea fi m. subst m.
  pose proof (getMetadata_no_audio p env s) as Hg.
  pose proof (getMetadata_keeps p env s) as Hgk.
  unfold run_result, run_trace, run_state in *. rewrite analyzeVideo_run.
  destruct (getMetadata p env s) as [[s1 t1] [md|e]] eqn:Eg; cbn in Hg, Hgk |- *;
    subst s1.
  2:{ split; [intros e' He; left; injection He as <-; reflexivity|].
      split; [intros cmd Hin; exfalso; exact (no_audio_not_in cmd t1 Hg Hin)|].
      discriminate. }
  set (fr := if ef then extractFrames p mf fi 1920 Jpeg 80 else mret []).
  assert (Hfr : Forall no_audio_event (fst (fr env s)).2).
  { unfold fr. destruct ef; [apply extractFrames_no_audio | constructor]. }
  assert (Hfrk : (fst (fr env s)).1 = s).
  { unfold fr. destruct ef; [apply extractFrames_keeps | reflexivity]. }
  destruct (fr env s) as [[s2 t2] [frames|e]] eqn:Ef; cbn in Hfr, Hfrk |- *.
  2:{ split; [intros e' He; right; injection He as <-|].
      - unfold fr in Ef. destruct ef; [split; [reflexivity|]|].
        + rewrite Ef. reflexivity.
        + discriminate Ef.
      - split; [|discriminate]. intros cmd Hin. exfalso.
        apply in_app_or in Hin as [Hin|Hin];
          [exact (no_audio_not_in cmd t1 Hg Hin) | exact (no_audio_not_in cmd t2 Hfr Hin)]. }
  subst s2.
  destruct (ea && hasAudio md) eqn:Ea.
  - apply andb_true_iff in Ea as [Ea Eh]. subst ea.
    unfold try_catch. destruct (extractAudio p Mp3 "128k" None None env s)
      as [[s3 t3] [ap|e]]; cbn.
    + split; [discriminate|]. split.
      * intros _ _. split; [reflexivity|]. exists md. split; [reflexivity | exact Eh].
      * intros va Hva _. injection Hva as <-. split; [reflexivity | exact Eh].
    + split; [discriminate|]. split.
      * intros _ _. split; [reflexivity|]. exists md. split; [reflexivity | exact Eh].
      * intros va Hva _. injection Hva as <-. split; [reflexivity | exact Eh].
  - cbn. split; [discriminate|]. split.
    + intros cmd Hin. exfalso. rewrite !app_nil_r in Hin.
      apply in_app_or in Hin as [Hin|Hin];
        [exact (no_audio_not_in cmd t1 Hg Hin) | exact (no_audio_not_in cmd t2 Hfr Hin)].
    + intros va Hva Hap. injection Hva as <-. cbn in Hap. exfalso. apply Hap. reflexivity.
Qed.


Lemma extractFrames_decodes_in_range_witness :
  let env := sample_env 100 1920 1080 true in
  run_result (getMetadata "/videos/clip.mp4") env empty_state
    = inl (sample_metadata 100 1920 1080 true)
  /\ (0 <= duration (sample_metadata 100 1920 1080 true))%Q
  /\ exists k, (k <= 5)%nat
     /\ decode_requests
          (run_trace (extractFrames "/videos/clip.mp4" 5 None 1920 Jpeg 80) env empty_state)
        = map (fun i => ("/videos/clip.mp4", (inject_Z (Z.of_nat i) * 20)%Q)) (seq 0 k).
Proof.
  cbv zeta.
  assert (Hmd : run_result (getMetadata "/videos/clip.mp4") (sample_env 100 1920 1080 true)
                  empty_state = inl (sample_metadata 100 1920 1080 true))
    by (vm_compute; reflexivity).
  assert (Hd : (0 <= duration (sample_metadata 100 1920 1080 true))%Q)
    by (apply Qle_bool_iff; reflexivity).
  split; [exact Hmd|]. split; [exact Hd|].
  destruct (extractFrames_decodes_in_range (sample_env 100 1920 1080 true) empty_state
              "/videos/clip.mp4" 5 None 1920 Jpeg 80 (sample_metadata 100 1920 1080 true) Hmd Hd)
    as (k & Hk & Hdec & _).
  exists k. split; [exact Hk | exact Hdec].
Defined.

(** Every tool call that names a video path that is not accessible checks only that path, keeps the state and answers success false with the error [File not found: ] followed by the path. *)
Theorem callTool_missing_file :
  forall (env : Env) (s : ProcState) (call : ToolCall) (videoPath : string),
    call_path call = Some videoPath ->
    env_access env videoPath = false ->
    run_state (callTool call) env s = s
    /\ run_trace (callTool call) env s = [EvAccess videoPath]
    /\ exists j, run_result (callTool call) env s = inl (text_response j)
                 /\ jget "success" j = Some (JBool false)
                 /\ jget "error" j = Some (JStr (String.append "File not found: " videoPath)).
Proof.
  intros env s call p Hp Hacc.
  destruct call; cbn in Hp; try discriminate Hp; injection Hp as <-;
    unfold run_state, run_trace, run_result, callTool, catch_to_response,
      handle_get_video_overview, handle_get_video_metadata, handle_estimate_analysis_cost,
      handle_get_frame, handle_get_frames_batch, handle_extract_audio,
      handle_analyze_video_full, checkFile;
    unfold mbind, M_bind, ask, emit, mret, M_ret; cbn; rewrite Hacc; cbn;
    (split; [reflexivity|]); (split; [reflexivity|]);
    eexists; (split; [reflexivity|]); split; reflexivity.
Qed.

Lemma callTool_missing_file_witness :
  let env := with_access (sample_env 100 1920 1080 true) (fun _ => false) in
  call_path (TGetFrame "/videos/missing.mp4" 5 None None None) = Some "/videos/missing.mp4"
  /\ env_access env "/videos/missing.mp4" = false
  /\ run_trace (callTool (TGetFrame "/videos/missing.mp4" 5 None None None)) env empty_state
     = [EvAccess "/videos/missing.mp4"].
Proof.
  cbv zeta. split; [reflexivity|]. split; [reflexivity|].
  exact (proj1 (proj2 (callTool_missing_file (with_access (sample_env 100 1920 1080 true) (fun _ => false)) empty_state
                         (TGetFrame "/videos/missing.mp4" 5 None None None)
                         "/videos/missing.mp4" eq_refl eq_refl))).
Defined.

(** For an accessible video with audio, the [extract_audio] tool keeps the state, probes and stats the file, makes the temporary directory and runs the extractor once, seeking to the start time, with no duration when there is no start time, with duration end minus start when both are given, and with no bitrate for wav; on success it reports the output path (segment full without a start time), on failure an error response with the prefixed message. *)
Theorem extract_audio_command :
  forall (env : Env) (s : ProcState) (videoPath : string) (md : VideoMetadata)
         (fmt : option audio_format) (bitrate : option string) (startTime endTime : option Q),
    env_access env videoPath = true ->
    run_result (getMetadata videoPath) env s = inl md ->
    hasAudio md = true ->
    let m := callTool (TExtractAudio videoPath fmt bitrate startTime endTime) in
    run_state m env s = s
    /\ exists cmd,
         run_trace m env s
         = [EvAccess videoPath; EvProbe videoPath; EvStat videoPath;
            EvMkdir (tempDir env); EvExtractAudio cmd]
         /\ ac_input cmd = videoPath
         /\ ac_seek cmd = startTime
         /\ (startTime = None -> ac_duration cmd = None)
         /\ (forall a b, startTime = Some a -> endTime = Some b ->
               ac_duration cmd = Some (b - a)%Q)
         /\ (default fmt Mp3 = Wav -> ac_bitrate cmd = None)
         /\ (env_ffmpeg_audio env cmd = inl tt ->
               exists j, run_result m env s = inl (text_response j)
                 /\ jget "success" j = Some (JBool true)
                 /\ jget "audioPath" j = Some (JStr (ac_output cmd))
                 /\ (startTime = None -> jget "segment" j = Some (JStr "full")))
         /\ (forall e, env_ffmpeg_audio env cmd = inr e ->
               exists resp j, run_result m env s = inl resp
                 /\ tr_isError resp = true
                 /\ tr_content resp = [CText j]
                 /\ jget "error" j = Some (JStr (String.append "Failed to extract audio: " e))).
Proof.
  intros env s p md fmt br st et Hacc Hmd Ha m. subst m.
  apply getMetadata_success in Hmd.
  unfold run_state, run_trace, run_result, callTool, catch_to_response, handle_extract_audio,
    checkFile, extractAudio, ensureTempDir, lift_result.
  unfold mbind, M_bind, ask, emit, mret, M_ret, throw. cbn.
  rewrite Hacc. cbn. rewrite Hmd. cbn. rewrite Ha. cbn.
  match goal with |- context [env_ffmpeg_audio env ?c] => set (cmd := c) end.
  destruct (env_ffmpeg_audio env cmd) as [[]|e] eqn:Ec; cbn.
  - split; [reflexivity|]. exists cmd.
    split; [reflexivity|]. split; [reflexivity|]. split; [reflexivity|].
    split; [intros ->; destruct et; reflexivity|].
    split; [intros a b -> ->; reflexivity|].
    split; [intros Hw; unfold cmd; cbn; rewrite Hw; reflexivity|].
    split.
    + intros _. eexists. split; [reflexivity|]. split; [reflexivity|].
      split; [reflexivity|]. intros ->. reflexivity.
    + intros e He. rewrite Ec in He. discriminate He.
  - split; [reflexivity|]. exists cmd.
    split; [reflexivity|]. split; [reflexivity|]. split; [reflexivity|].
    split; [intros ->; destruct et; reflexivity|].
    split; [intros a b -> ->; reflexivity|].
    split; [intros Hw; unfold cmd; cbn; rewrite Hw; reflexivity|].
    split.
    + intros He. rewrite Ec in He. discriminate He.
    + intros e' He. rewrite Ec in He. injection He as <-. do 2 eexists.
      split; [reflexivity|]. split; [reflexivity|]. split; reflexivity.
Qed.

Lemma extract_audio_command_witness :
  let env := sample_env 100 1920 1080 true in
  env_access env "/videos/clip.mp4" = true
  /\ run_result (getMetadata "/videos/clip.mp4") env empty_state
     = inl (sample_metadata 100 1920 1080 true)
  /\ hasAudio (sample_metadata 100 1920 1080 true) = true
  /\ run_state (callTool (TExtractAudio "/videos/clip.mp4" (Some Wav) None None (Some 30%Q)))
       env empty_state = empty_state.
Proof.
  cbv zeta. split; [reflexivity|]. split; [vm_compute; reflexivity|]. split; [reflexivity|].
  exact (proj1 (extract_audio_command (sample_env 100 1920 1080 true) empty_state
                  "/videos/clip.mp4" (sample_metadata 100 1920 1080 true) (Some Wav) None
                  None (Some 30%Q) eq_refl ltac:(vm_compute; reflexivity) eq_refl)).
Defined.

Lemma keeps_catch_to_response m : keeps_state m -> keeps_state (catch_to_response m).
Proof.
  intros H env s. specialize (H env s). unfold run_state, catch_to_response in *.
  destruct (m env s) as [[s1 t1] [r|e]]; exact H.
Qed.

(** The [get_video_metadata] and [estimate_analysis_cost] tools only check access to, probe and stat the given file, and keep the state. *)
Theorem metadata_tools_only_read_metadata :
  forall (videoPath : string) (frameCount : option Q),
    emits_only (metadata_event videoPath) (callTool (TGetVideoMetadata videoPath))
    /\ emits_only (metadata_event videoPath)
         (callTool (TEstimateAnalysisCost videoPath frameCount))
    /\ keeps_state (callTool (TGetVideoMetadata videoPath))
    /\ keeps_state (callTool (TEstimateAnalysisCost videoPath frameCount)).
Proof.
  intros p fc. unfold callTool.
  split; [|split; [|split]];
    first [apply only_catch_to_response | apply keeps_catch_to_response];
    unfold handle_get_video_metadata, handle_estimate_analysis_cost, checkFile,
      estimateTokens, getMetadataSummary, getMetadata.
  1, 2: only_tac.
  all: keeps_tac.
Qed.

(** When the video's width is 0, [estimate_analysis_cost] reports no tokens per frame, no total, no warning, and the recommendation that the context budget is manageable. *)
Theorem estimate_cost_zero_width :
  forall (env : Env) (s : ProcState) (videoPath : string) (frameCount : option Q)
         (md : VideoMetadata),
    env_access env videoPath = true ->
    run_result (getMetadata videoPath) env s = inl md ->
    width md = 0 ->
    exists j est,
      run_result (callTool (TEstimateAnalysisCost videoPath frameCount)) env s
        = inl (text_response j)
      /\ jget "success" j = Some (JBool true)
      /\ jget "estimate" j = Some est
      /\ jget "tokensPerFrame" est = Some JNull
      /\ jget "totalEstimated" est = Some JNull
      /\ jget "warning" est = None
      /\ jget "recommendation" j = Some (JStr "Context budget is manageable for this analysis").
Proof.
  intros env s p fc md Hacc Hmd Hw.
  apply getMetadata_success in Hmd.
  unfold run_result, callTool, catch_to_response, handle_estimate_analysis_cost, checkFile,
    estimateTokens.
  unfold mbind, M_bind, ask, emit, mret, M_ret. cbn.
  rewrite Hacc. cbn. rewrite Hmd. cbn. rewrite Hw.
  do 2 eexists. split; [reflexivity|]. split; [reflexivity|]. split; [reflexivity|].
  repeat split; reflexivity.
Qed.

Lemma estimate_cost_zero_width_witness :
  let env := with_probe (sample_env 60 1920 1080 false)
               (fun _ => inl (widthless_probe 60 1080)) in
  env_access env "/videos/clip.mp4" = true
  /\ run_result (getMetadata "/videos/clip.mp4") env empty_state
     = inl (sample_metadata 60 0 1080 false)
  /\ width (sample_metadata 60 0 1080 false) = 0
  /\ exists j, run_result (callTool (TEstimateAnalysisCost "/videos/clip.mp4" None)) env
                 empty_state = inl (text_response j).
Proof.
  cbv zeta. split; [reflexivity|]. split; [vm_compute; reflexivity|]. split; [reflexivity|].
  destruct (estimate_cost_zero_width
              (with_probe (sample_env 60 1920 1080 false) (fun _ => inl (widthless_probe 60 1080)))
              empty_state "/videos/clip.mp4" None (sample_metadata 60 0 1080 false)
              eq_refl ltac:(vm_compute; reflexivity) eq_refl) as (j & est & Hj & _).
  exists j. exact Hj.
Defined.

(** On success [getVideoOverview] stores its available frames in the frame cache under the video path and changes nothing else there; on failure the state is unchanged. *)
Theorem getVideoOverview_cache_write :
  forall (env : Env) (s : ProcState) (videoPath : string) (frameCount : Q),
    (forall ov, run_result (getVideoOverview videoPath frameCount) env s = inl ov ->
       frameCache (run_state (getVideoOverview videoPath frameCount) env s)
       = <[videoPath := ov_availableFrames ov]> (frameCache s))
    /\ (forall e, run_result (getVideoOverview videoPath frameCount) env s = inr e ->
          run_state (getVideoOverview videoPath frameCount) env s = s).
Proof.
  intros env s p fc.
  pose proof (getMetadata_keeps p env s) as Hk.
  unfold run_result, run_state in *.
  unfold getVideoOverview, getMetadataSummary, cache_set.
  unfold mbind, M_bind, mret, M_ret.
  destruct (getMetadata p env s) as [[s1 t1] [md|e]] eqn:Eg; cbn in Hk |- *; subst s1.
  - rewrite Eg. cbn. split; [intros ov Hov; injection Hov as <-; reflexivity | discriminate].
  - split; [discriminate | reflexivity].
Qed.

Lemma callTool_total (call : ToolCall) env s : exists r, run_result (callTool call) env s = inl r.
Proof.
  unfold run_result, callTool, catch_to_response.
  destruct (_ env s) as [[s1 t1] [r|e]]; eexists; reflexivity.
Qed.

(** A session of tool calls always succeeds, and each response equals the response of the same call run alone from the empty state: earlier calls never influence later responses. *)
Theorem session_responses_independent :
  forall (calls : list ToolCall) (env : Env) (s : ProcState),
    exists rs, run_result (session calls) env s = inl rs
      /\ Forall2 (fun c r => run_result (callTool c) env empty_state = inl r) calls rs.
Proof.
  induction calls as [|c cs IH]; intros env s.
  - exists []. split; [reflexivity | constructor].
  - destruct (callTool_total c env s) as [r Hr].
    pose proof (callTool_blind c env s empty_state) as Hb.
    unfold observe in Hb. injection Hb as _ Hb.
    unfold run_result in *. cbn [session]. unfold mbind at 1, M_bind at 1.
    destruct (callTool c env s) as [[s1 t1] r1] eqn:Ec. cbn in Hr. subst r1.
    destruct (IH env s1) as [rs [Hrs Hall]]. unfold run_result in Hrs.
    unfold mbind, M_bind, mret, M_ret.
    destruct (session cs env s1) as [[s2 t2] r2]. cbn in Hrs. subst r2.
    exists (r :: rs). split; [reflexivity|]. constructor; [|exact Hall].
    rewrite <- Hb. reflexivity.
Qed.

Lemma Qfloor_bounds (q : Q) (a b : Z) :
  (inject_Z a <= q)%Q -> (q < inject_Z b)%Q -> a <= Qfloor q < b.
Proof.
  intros Ha Hb. split.
  - rewrite <- (Qfloor_Z a). apply Qfloor_resp_le. exact Ha.
  - rewrite Zlt_Qlt. pose proof (Qfloor_le q). lra.
Qed.

Lemma Qfloor_ge_iff (q : Q) (z : Z) : z <= Qfloor q <-> (inject_Z z <= q)%Q.
Proof.
  split.
  - intros H. rewrite Zle_Qle in H. pose proof (Qfloor_le q). lra.
  - intros H. rewrite <- (Qfloor_Z z). apply Qfloor_resp_le. exact H.
Qed.

(** [getDurationLabel] on a non-negative duration: under a minute it prints rounded
    seconds, from 0 to 60 (60 from 59.5 seconds on); under an hour rounded minutes,
    from 1 to 60 (60 from 3570 seconds on); from an hour on the whole hours and the
    rounded minutes of the remainder, again from 0 to 60 (60 when the remainder is
    at least 3570 seconds). *)
Theorem getDurationLabel_ranges :
  forall s : Q,
    ((0 <= s)%Q -> (s < 60)%Q ->
       exists n, getDurationLabel s = String.append (show_Z n) " seconds"
         /\ 0 <= n <= 60 /\ (n = 60 <-> (119 # 2 <= s)%Q))
    /\ ((60 <= s)%Q -> (s < 3600)%Q ->
          exists n, getDurationLabel s = String.append (show_Z n) " minutes"
            /\ 1 <= n <= 60 /\ (n = 60 <-> (3570 <= s)%Q))
    /\ ((3600 <= s)%Q ->
          exists h m, getDurationLabel s
                      = String.append (show_Z h)
                          (String.append "h " (String.append (show_Z m) "m"))
            /\ h = Qfloor (s / 3600) /\ 1 <= h
            /\ 0 <= m <= 60
            /\ (m = 60 <-> (3570 <= s - 3600 * inject_Z h)%Q)).
Proof.
  intros s. split; [|split].
  - intros H0 H1. exists (Qround_js s).
    unfold getDurationLabel.
    replace (Qlt_bool s 60) with true by (symmetry; apply Qlt_bool_iff; exact H1).
    split; [reflexivity|]. unfold Qround_js.
    assert (Hb : 0 <= Qfloor (s + (1 # 2)) < 61)
      by (apply Qfloor_bounds; change (inject_Z 0) with 0%Q;
          change (inject_Z 61) with 61%Q; lra).
    split; [lia|].
    split.
    + intros E. assert (E' : 60 <= Qfloor (s + (1 # 2))) by lia.
      rewrite Qfloor_ge_iff in E'. change (inject_Z 60) with 60%Q in E'. lra.
    + intros E. assert (E' : 60 <= Qfloor (s + (1 # 2))); [|lia].
      rewrite Qfloor_ge_iff. change (inject_Z 60) with 60%Q. lra.
  - intros H0 H1. exists (Qround_js (s / 60)).
    unfold getDurationLabel.
    replace (Qlt_bool s 60) with false
      by (symmetry; apply not_true_iff_false; rewrite Qlt_bool_iff; lra).
    replace (Qlt_bool s 3600) with true by (symmetry; apply Qlt_bool_iff; exact H1).
    split; [reflexivity|]. unfold Qround_js.
    assert (Hs1 : (1 <= s / 60)%Q)
      by (apply Qle_shift_div_l; lra).
    assert (Hs2 : (s / 60 < 60)%Q)
      by (apply Qlt_shift_div_r; lra).
    assert (Hb : 1 <= Qfloor (s / 60 + (1 # 2)) < 61)
      by (apply Qfloor_bounds; change (inject_Z 1) with 1%Q;
          change (inject_Z 61) with 61%Q; lra).
    split; [lia|].
    split.
    + intros E. assert (E' : 60 <= Qfloor (s / 60 + (1 # 2))) by lia.
      rewrite Qfloor_ge_iff in E'. change (inject_Z 60) with 60%Q in E'.
      assert (E2 : ((119 # 2) <= s / 60)%Q) by lra.
      apply (Qmult_le_compat_r _ _ 60) in E2; [|lra].
      assert (Hd6 : (s / 60 * 60 == s)%Q) by (field; discriminate). lra.
    + intros E. assert (E' : 60 <= Qfloor (s / 60 + (1 # 2))); [|lia].
      rewrite Qfloor_ge_iff. change (inject_Z 60) with 60%Q.
      assert (E2 : ((119 # 2) <= s / 60)%Q) by (apply Qle_shift_div_l; lra).
      lra.
  - intros H0.
    set (h := Qfloor (s / 3600)).
    set (r := (s - 3600 * inject_Z h)%Q).
    assert (Hfl : (inject_Z h <= s / 3600)%Q) by apply Qfloor_le.
    assert (Hfu : (s / 3600 < inject_Z (h + 1))%Q) by apply Qlt_floor.
    rewrite inject_Z_plus in Hfu. change (inject_Z 1) with 1%Q in Hfu.
    assert (Hd : (s / 3600 * 3600 == s)%Q) by (field; discriminate).
    assert (Hr0 : (0 <= r)%Q).
    { unfold r. apply (Qmult_le_compat_r _ _ 3600) in Hfl; [|lra]. lra. }
    assert (Hr1 : (r < 3600)%Q).
    { unfold r. apply (Qmult_lt_compat_r _ _ 3600) in Hfu; [|reflexivity].
      rewrite Qmult_plus_distr_l in Hfu. lra. }
    assert (Hh : 1 <= h).
    { unfold h. rewrite Qfloor_ge_iff. change (inject_Z 1) with 1%Q.
      apply Qle_shift_div_l; lra. }
    assert (Hrem : (Qrem_js s 3600 == r)%Q).
    { unfold Qrem_js, Qtrunc, r, h.
      replace (Qle_bool 0 (s / 3600)) with true
        by (symmetry; apply Qle_bool_iff; apply Qle_shift_div_l; lra).
      reflexivity. }
    exists h, (Qround_js (r / 60)).
    unfold getDurationLabel.
    replace (Qlt_bool s 60) with false
      by (symmetry; apply not_true_iff_false; rewrite Qlt_bool_iff; lra).
    replace (Qlt_bool s 3600) with false
      by (symmetry; apply not_true_iff_false; rewrite Qlt_bool_iff; lra).
    split.
    { unfold Qround_js. rewrite (Qfloor_comp _ _ (Qplus_comp _ _ (Qdiv_comp _ _ Hrem _ _ (Qeq_refl 60)) _ _ (Qeq_refl (1 # 2)))).
      reflexivity. }
    split; [reflexivity|]. split; [exact Hh|].
    fold r. unfold Qround_js.
    assert (Hs1 : (0 <= r / 60)%Q) by (apply Qle_shift_div_l; lra).
    assert (Hs2 : (r / 60 < 60)%Q) by (apply Qlt_shift_div_r; lra).
    assert (Hb : 0 <= Qfloor (r / 60 + (1 # 2)) < 61)
      by (apply Qfloor_bounds; change (inject_Z 0) with 0%Q;
          change (inject_Z 61) with 61%Q; lra).
    split; [lia|].
    split.
    + intros E. assert (E' : 60 <= Qfloor (r / 60 + (1 # 2))) by lia.
      rewrite Qfloor_ge_iff in E'. change (inject_Z 60) with 60%Q in E'.
      assert (E2 : ((119 # 2) <= r / 60)%Q) by lra.
      apply (Qmult_le_compat_r _ _ 60) in E2; [|lra].
      assert (Hd6 : (r / 60 * 60 == r)%Q) by (field; discriminate). lra.
    + intros E. assert (E' : 60 <= Qfloor (r / 60 + (1 # 2))); [|lia].
      rewrite Qfloor_ge_iff. change (inject_Z 60) with 60%Q.
      assert (E2 : ((119 # 2) <= r / 60)%Q) by (apply Qle_shift_div_l; lra).
      lra.
Qed.
